(** * The Talend job-summary extractor ([parse_talend_xml], app1.py)

    A shallow embedding of [parse_talend_xml] and of the part of
    [xml.etree.ElementTree] it relies on, together with the properties of
    the extractor stated in the specification.

    Conventions.
    - A Python value that is either [None] or a [str] is an
      [option string]; truthiness is [truthy].
    - A Python [dict] is a [gmap]; a key bound to [None] is a lookup that
      returns [Some None].
    - Strings are sequences of bytes (UTF-8).  The only character the
      extractor inspects is the double quote (byte 34), which never occurs
      inside a multi-byte sequence, so stripping bytes and stripping code
      points agree.
    - Console logging ([print]) is not part of the model. *)

From Stdlib Require Import Ascii.
From stdpp Require Import gmap strings list fin_maps pretty.

Local Open Scope string_scope.
Local Open Scope list_scope.

(** ** Python strings *)

Module Py.

(** [bool(v)] for [v] a [str] or [None]. *)
Definition truthy (v : option string) : bool :=
  match v with
  | Some s => negb (bool_decide (s = ""))
  | None => false
  end.

Definition quote : ascii := "034"%char.

Definition in_chars (chars : list ascii) (c : ascii) : bool :=
  bool_decide (c ∈ chars).

(** [s.lstrip(chars)] *)
Fixpoint lstrip (chars : list ascii) (s : string) : string :=
  match s with
  | String c s' => if in_chars chars c then lstrip chars s' else s
  | EmptyString => EmptyString
  end.

(** [s.rstrip(chars)] *)
Fixpoint rstrip (chars : list ascii) (s : string) : string :=
  match s with
  | String c s' =>
      match rstrip chars s' with
      | EmptyString => if in_chars chars c then EmptyString else String c EmptyString
      | r => String c r
      end
  | EmptyString => EmptyString
  end.

(** [s.strip(chars)]: every leading and every trailing character of
    [chars] is removed. *)
Definition strip (chars : list ascii) (s : string) : string :=
  rstrip chars (lstrip chars s).

(** [value.strip(q)] with [q] the double-quote character *)
Definition strip_quotes (s : string) : string := strip [quote] s.

End Py.

(** ** ElementTree *)

Module ET.

(** An [Element]: tag, attribute dictionary, text before the first child,
    children.  The text of an element without character data is [None];
    the parser never stores an empty string.  The [tail] is never read
    by the extractor and is left out.  A tag in a namespace is spelled
    [{uri}local], as ElementTree does. *)
Unset Elimination Schemes.
Inductive Element : Type :=
  mkElement {
      tag : string;
      attrib : gmap string string;
      text : option string;
      children : list Element
    }.
Set Elimination Schemes.

(** [elem.get(key)] *)
Definition get (key : string) (elem : Element) : option string :=
  attrib elem !! key.

(** [elem.get(key, default)] *)
Definition get_default (key dflt : string) (elem : Element) : string :=
  default dflt (attrib elem !! key).

(** [elem.iter()]: the element, then its subtree, in document order. *)
Fixpoint iter (elem : Element) : list Element :=
  elem :: (fix over (cs : list Element) : list Element :=
             match cs with
             | [] => []
             | c :: cs' => iter c ++ over cs'
             end) (children elem).

Definition iter_all (cs : list Element) : list Element :=
  cs ≫= iter.

(** The candidates of a [.//] step: every element of the subtree except
    the context element itself. *)
Definition descendants (elem : Element) : list Element :=
  iter_all (children elem).

Definition has_tag (t : string) (e : Element) : bool :=
  bool_decide (tag e = t).

(** [elem.findall('.//t')] *)
Definition findall (t : string) (elem : Element) : list Element :=
  filter (λ e, has_tag t e = true) (descendants elem).

(** [elem.find('.//t')] *)
Definition find (t : string) (elem : Element) : option Element :=
  head (findall t elem).

(** [elem.find] with the path [.//t[@key=v]] *)
Definition find_attr (t key v : string) (elem : Element) : option Element :=
  head (filter (λ e, get key e = Some v) (findall t elem)).

End ET.

(** ** The job summary *)

(** One entry of a schema's [columns] list.  [col_default] is [None] when
    the dictionary has no [default] key. *)
Record Column : Type :=
  mkColumn {
      col_name : option string;
      col_talend_type : option string;
      col_key : bool;
      col_nullable : bool;
      col_length : option string;
      col_precision : option string;
      col_comment : option string;
      col_default : option string
    }.

(** One entry of a component's local [metadata] list. *)
Record Schema : Type :=
  mkSchema {
      connector_type : option string;
      schema_name : option string;
      columns : list Column
    }.

(** One entry of [summary["components"]].  A parameter value is a [str]
    or [None]. *)
Record Component : Type :=
  mkComponent {
      comp_type : option string;
      comp_unique_name : option string;
      comp_label : option string;
      comp_parameters : gmap string (option string);
      comp_metadata : list Schema
    }.

(** One entry of [summary["connections"]]. *)
Record Connection : Type :=
  mkConnection {
      source_component_id : option string;
      target_component_id : option string;
      connector_name : option string;
      line_style : option string;
      metadata_name : option string
    }.

(** The dictionary [summary].  [metadata] maps a schema name to the
    [columns] of its one-key dictionary; [error] is [None] while the
    dictionary has no [error] key. *)
Record JobSummary : Type :=
  mkJobSummary {
      job_name : string;
      components : list Component;
      connections : list Connection;
      metadata : gmap string (list Column);
      notes : list (option string);
      error : option string
    }.

Definition set_job_name (v : string) (s : JobSummary) : JobSummary :=
  mkJobSummary v (components s) (connections s) (metadata s) (notes s) (error s).

Definition append_component (c : Component) (s : JobSummary) : JobSummary :=
  mkJobSummary (job_name s) (components s ++ [c]) (connections s) (metadata s)
               (notes s) (error s).

Definition append_connection (c : Connection) (s : JobSummary) : JobSummary :=
  mkJobSummary (job_name s) (components s) (connections s ++ [c]) (metadata s)
               (notes s) (error s).

Definition set_metadata (m : gmap string (list Column)) (s : JobSummary) : JobSummary :=
  mkJobSummary (job_name s) (components s) (connections s) m (notes s) (error s).

Definition append_note (n : option string) (s : JobSummary) : JobSummary :=
  mkJobSummary (job_name s) (components s) (connections s) (metadata s)
               (notes s ++ [n]) (error s).

Definition set_error (e : string) (s : JobSummary) : JobSummary :=
  mkJobSummary (job_name s) (components s) (connections s) (metadata s)
               (notes s) (Some e).

Definition append_schema (sc : Schema) (c : Component) : Component :=
  mkComponent (comp_type c) (comp_unique_name c) (comp_label c)
              (comp_parameters c) (comp_metadata c ++ [sc]).

(** ** Exceptions and the state of the [try] block *)

(** The exceptions the two handlers tell apart: [ET.ParseError], and any
    other [Exception].  Each carries its [str()]. *)
Inductive exn : Type :=
| ParseError (msg : string)
| OtherException (msg : string).

Inductive result (A : Type) : Type :=
| Return (a : A)
| Raise (e : exn).
Arguments Return {A} a.
Arguments Raise {A} e.

(** A statement of the [try] block: it runs on the current [summary],
    which it may have updated when it returns or raises. *)
Definition M (A : Type) : Type := JobSummary → JobSummary * result A.

#[global] Instance M_ret : MRet M := λ A a s, (s, Return a).

#[global] Instance M_bind : MBind M :=
  λ A B f m s,
    match m s with
    | (s', Return a) => f a s'
    | (s', Raise e) => (s', Raise e)
    end.

(** A call whose outcome does not depend on [summary]. *)
Definition call {A : Type} (r : result A) : M A := λ s, (s, r).

(** An in-place update of [summary]. *)
Definition update (f : JobSummary → JobSummary) : M unit := λ s, (f s, Return tt).

(** [for x in xs: body(x)] *)
Fixpoint for_each {A : Type} (xs : list A) (body : A → M unit) : M unit :=
  match xs with
  | [] => mret tt
  | x :: xs' => body x ;; for_each xs' body
  end.

(** ** [parse_talend_xml] *)

Import Py ET.

(** The namespace map passed to the job-name lookup. *)
Definition namespaces : list (string * string) :=
  [("TalendProperties", "http://www.talend.org/properties");
   ("xmi", "http://www.omg.org/XMI");
   ("talendfile", "platform:/resource/org.talend.model/model/TalendFile.xsd")].

(** The tag that [TalendProperties:Property] stands for under
    [namespaces]. *)
Definition Property_tag : string := "{http://www.talend.org/properties}Property".

(** The names that are not copied into [params] (the literal list of the
    membership test, in its order and with its repetition). *)
Definition denylist : list string :=
  ["UNIQUE_NAME"; "COMPONENT_NAME"; "LABEL"; "CONNECTION_FORMAT";
   "CHECK_NUM"; "CHECK_UNIQUE_NAME"; "ACTIVATE"; "LOG4J_ACTIVATE";
   "START"; "STARTABLE"; "SUBTREE_START"; "END_OF_FLOW"; "ACTIVATE";
   "PROCESS_TYPE_VERSION"; "PROCESS_TYPE_CONTEXT"; "PROCESS_TYPE_PROCESS";
   "QUERYSTORE"; "UPDATE_COMPONENTS"; "CURRENT_OS"].

Definition denylisted (name : string) : bool := bool_decide (name ∈ denylist).

(** Extract Job Name *)
Definition extract_job_name (root : Element) (summary : JobSummary) : JobSummary :=
  let fallback :=
    match find "processType" root with
    | Some process_type =>
        match get "name" process_type with
        | Some n => if truthy (Some n) then set_job_name n summary else summary
        | None => summary
        end
    | None => summary
    end in
  match find Property_tag root with
  | Some job_info =>
      match get "label" job_info with
      | Some l => if truthy (Some l) then set_job_name l summary else fallback
      | None => fallback
      end
  | None => fallback
  end.

(** [value = param.text if param.text is not None else param.get('value')] *)
Definition param_value (param : Element) : option string :=
  match text param with
  | Some t => Some t
  | None => get "value" param
  end.

(** The body of the parameter loop, as a function of the three values it
    reads from [param]. *)
Definition scan_with (component_name field name value : option string)
    (params : gmap string (option string)) : gmap string (option string) :=
  let params :=
    match value, name with
    | Some v, Some n =>
        if truthy field && truthy name && negb (denylisted n)
        then <[n := Some (strip_quotes v)]> params
        else params
    | _, _ => params
    end in
  if bool_decide (component_name = Some "tMap") then
    let params :=
      if bool_decide (name = Some "VAR_TABLE")
      then <["tMap_variables_raw" := value]> params else params in
    if bool_decide (name = Some "OUTPUT_TABLES")
    then <["tMap_outputs_raw" := value]> params else params
  else if bool_decide (name = Some "QUERY") && truthy value then
    <["sql_query" := strip_quotes <$> value]> params
  else if bool_decide (name = Some "FILENAME") && truthy value then
    <["filepath" := strip_quotes <$> value]> params
  else if bool_decide (name = Some "TABLE") && truthy value then
    <["db_table_name" := strip_quotes <$> value]> params
  else params.

Definition scan_param (component_name : option string)
    (params : gmap string (option string)) (param : Element)
  : gmap string (option string) :=
  scan_with component_name (get "field" param) (get "name" param)
            (param_value param) params.

(** The parameter loop of one node. *)
Definition scan_params (component_name : option string) (node : Element)
  : gmap string (option string) :=
  foldl (scan_param component_name) ∅ (findall "elementParameter" node).

(** The [LABEL] override. *)
Definition node_label (unique_name : option string) (node : Element) : option string :=
  let label_param := find_attr "elementParameter" "name" "LABEL" node in
  if truthy (label_param ≫= get "value")
  then strip_quotes <$> (label_param ≫= get "value")
  else unique_name.

(** The [HINT] entry. *)
Definition add_hint (node : Element) (params : gmap string (option string))
  : gmap string (option string) :=
  let hint_param := find_attr "elementParameter" "name" "HINT" node in
  if truthy (hint_param ≫= get "value")
  then <["hint" := strip_quotes <$> (hint_param ≫= get "value")]> params
  else params.

Definition column_data (col : Element) : Column :=
  let default_val := get "defaultValue" col in
  {| col_name := get "name" col;
     col_talend_type := get "type" col;
     col_key := bool_decide (get_default "key" "false" col = "true");
     col_nullable := bool_decide (get_default "nullable" "true" col = "true");
     col_length := get "length" col;
     col_precision := get "precision" col;
     col_comment := get "comment" col;
     col_default := if truthy default_val then strip_quotes <$> default_val else None |}.

Definition schema_columns (meta_conn : Element) : list Column :=
  column_data <$> findall "column" meta_conn.

Definition schema_data (meta_conn : Element) : Schema :=
  {| connector_type := get "connector" meta_conn;
     schema_name := get "name" meta_conn;
     columns := schema_columns meta_conn |}.

(** The job-level registration of a schema: only under a non-empty name
    that is not yet a key. *)
Definition register_schema (meta_conn : Element)
    (m : gmap string (list Column)) : gmap string (list Column) :=
  match get "name" meta_conn with
  | Some meta_name =>
      if truthy (Some meta_name) && negb (bool_decide (is_Some (m !! meta_name)))
      then <[meta_name := schema_columns meta_conn]> m
      else m
  | None => m
  end.

(** The body of the schema loop: it appends to the component's own list
    and registers at the job level. *)
Definition scan_metadata (st : Component * JobSummary) (meta_conn : Element)
  : Component * JobSummary :=
  (append_schema (schema_data meta_conn) st.1,
   set_metadata (register_schema meta_conn (metadata st.2)) st.2).

(** The body of the component loop. *)
Definition extract_component (node : Element) (summary : JobSummary) : JobSummary :=
  let component_name := get "componentName" node in
  let unique_name := get "uniqueName" node in
  let params := scan_params component_name node in
  let label := node_label unique_name node in
  let params := add_hint node params in
  let component_data := mkComponent component_name unique_name label params [] in
  let st := foldl scan_metadata (component_data, summary) (findall "metadata" node) in
  append_component st.1 st.2.

Definition connection_data (conn : Element) : Connection :=
  {| source_component_id := get "source" conn;
     target_component_id := get "target" conn;
     connector_name := get "connectorName" conn;
     line_style := get "lineStyle" conn;
     metadata_name := get "metaname" conn |}.

Definition initial_summary : JobSummary :=
  {| job_name := "unknown_job";
     components := [];
     connections := [];
     metadata := ∅;
     notes := [];
     error := None |}.

(** What a handler stores under [error]. *)
Definition error_message (e : exn) : string :=
  match e with
  | ParseError msg => "Failed to parse XML: " +:+ msg
  | OtherException msg => "Unexpected error during XML parsing: " +:+ msg
  end.

(** The [try] statement with its two handlers, and the final
    [return summary].  The handlers add the [error] key to the dictionary
    the body has been updating. *)
Definition try_except (body : M unit) (summary : JobSummary) : result JobSummary :=
  match body summary with
  | (summary, Return _) => Return summary
  | (summary, Raise (ParseError msg)) =>
      Return (set_error ("Failed to parse XML: " +:+ msg) summary)
  | (summary, Raise (OtherException msg)) =>
      Return (set_error ("Unexpected error during XML parsing: " +:+ msg) summary)
  end.

Section Extractor.

(** [ET.fromstring], the library's parser: it returns the root element
    or raises. *)
Variable fromstring : string → result Element.

(** The statements of the [try] block. *)
Definition try_block (xml_content : string) : M unit :=
  root ← call (fromstring xml_content);
  update (extract_job_name root) ;;
  for_each (findall "node" root) (λ node, update (extract_component node)) ;;
  for_each (findall "connection" root)
           (λ conn, update (append_connection (connection_data conn))) ;;
  for_each (findall "note" root)
           (λ note, update (append_note (get "text" note))).

Definition parse_talend_xml (xml_content : string) : result JobSummary :=
  try_except (try_block xml_content) initial_summary.

End Extractor.

(** ** A reader for concrete documents

    The development is parametric in the library's parser.  To run the
    extractor on concrete documents, [XmlReader.fromstring] reads the
    fragment of XML made of a prolog, comments, elements, attributes in
    single or double quotes, character data, the five predefined entities
    and namespace declarations (no document type, no section of
    unparsed data, no character reference, no carriage return), and
    builds the tree ElementTree builds for it; anything else is a
    [ParseError]. *)

Module XmlReader.

Inductive token : Type :=
| StartTag (name : string) (attrs : list (string * string)) (closed : bool)
| EndTag (name : string)
| CharData (data : string).

Definition is_space (c : ascii) : bool :=
  bool_decide (c ∈ [" "%char; "009"%char; "010"%char; "013"%char]).

Definition is_name_char (c : ascii) : bool :=
  let n := nat_of_ascii c in
  ((65 <=? n)%nat && (n <=? 90)%nat) || ((97 <=? n)%nat && (n <=? 122)%nat)
  || ((48 <=? n)%nat && (n <=? 57)%nat)
  || bool_decide (c ∈ ["_"%char; "-"%char; "."%char; ":"%char])
  || (128 <=? n)%nat.

Definition is_name_start (c : ascii) : bool :=
  let n := nat_of_ascii c in
  ((65 <=? n)%nat && (n <=? 90)%nat) || ((97 <=? n)%nat && (n <=? 122)%nat)
  || bool_decide (c ∈ ["_"%char; ":"%char])
  || (128 <=? n)%nat.

Definition valid_name (s : string) : bool :=
  match s with
  | String c _ => is_name_start c
  | EmptyString => false
  end.

(** The longest prefix whose characters satisfy [p], and the rest. *)
Fixpoint span (p : ascii → bool) (s : string) : string * string :=
  match s with
  | String c s' =>
      if p c then let (a, b) := span p s' in (String c a, b) else (EmptyString, s)
  | EmptyString => (EmptyString, EmptyString)
  end.

Definition skip_space (s : string) : string := (span is_space s).2.

Fixpoint starts_with (pat s : string) : option string :=
  match pat, s with
  | EmptyString, _ => Some s
  | String a pat', String b s' => if bool_decide (a = b) then starts_with pat' s' else None
  | _, _ => None
  end.

(** What follows the first occurrence of [pat]. *)
Fixpoint after (pat s : string) : option string :=
  match starts_with pat s with
  | Some r => Some r
  | None => match s with
            | String _ s' => after pat s'
            | EmptyString => None
            end
  end.

Definition entity (name : string) : option ascii :=
  if bool_decide (name = "lt") then Some "<"%char
  else if bool_decide (name = "gt") then Some ">"%char
  else if bool_decide (name = "amp") then Some "&"%char
  else if bool_decide (name = "quot") then Some Py.quote
  else if bool_decide (name = "apos") then Some "'"%char
  else None.

(** Character data with its entity references replaced; [pending] is
    the name of the reference being read. *)
Fixpoint decode (pending : option string) (s : string) : option string :=
  match s, pending with
  | EmptyString, None => Some EmptyString
  | EmptyString, Some _ => None
  | String c s', None =>
      if bool_decide (c = "&"%char) then decode (Some EmptyString) s'
      else String c <$> decode None s'
  | String c s', Some name =>
      if bool_decide (c = ";"%char)
      then ch ← entity name; String ch <$> decode None s'
      else decode (Some (name +:+ String c EmptyString)) s'
  end.

(** The attributes of a start tag, up to its closing bracket. *)
Fixpoint lex_attrs (fuel : nat) (s : string)
  : option (list (string * string) * bool * string) :=
  match fuel with
  | O => None
  | S fuel =>
      match skip_space s with
      | String ">" r => Some ([], false, r)
      | String "/" (String ">" r) => Some ([], true, r)
      | s1 =>
          let (name, s2) := span is_name_char s1 in
          if negb (valid_name name) || bool_decide ((span is_space s).1 = EmptyString)
          then None else
            match skip_space s2 with
            | String "=" s3 =>
                match skip_space s3 with
                | String q s4 =>
                    if bool_decide (q = Py.quote) || bool_decide (q = "'"%char) then
                      let (raw, s5) := span (λ c, negb (bool_decide (c = q))) s4 in
                      match s5 with
                      | String _ s6 =>
                          if bool_decide ("<"%char ∈ String.list_ascii_of_string raw) then None else
                            v ← decode None raw;
                            '(attrs, closed, r) ← lex_attrs fuel s6;
                            Some ((name, v) :: attrs, closed, r)
                      | EmptyString => None
                      end
                    else None
                | EmptyString => None
                end
            | _ => None
            end
      end
  end.

Fixpoint lex (fuel : nat) (s : string) : option (list token) :=
  match fuel with
  | O => None
  | S fuel =>
      match s with
      | EmptyString => Some []
      | String "<" (String "?" r) => r' ← after "?>" r; lex fuel r'
      | String "<" (String "!" (String "-" (String "-" r))) =>
          r' ← after "-->" r; lex fuel r'
      | String "<" (String "/" r) =>
          let (name, r1) := span is_name_char r in
          match skip_space r1 with
          | String ">" r2 =>
              if negb (valid_name name) then None
              else (EndTag name ::.) <$> lex fuel r2
          | _ => None
          end
      | String "<" r =>
          let (name, r1) := span is_name_char r in
          if negb (valid_name name) then None else
            '(attrs, closed, r2) ← lex_attrs fuel r1;
            (StartTag name attrs closed ::.) <$> lex fuel r2
      | _ =>
          let (raw, r) := span (λ c, negb (bool_decide (c = "<"%char))) s in
          data ← decode None raw;
          (CharData data ::.) <$> lex fuel r
      end
  end.

(** An element that is still open. *)
Record frame : Type :=
  mkFrame {
      f_name : string;
      f_tag : string;
      f_attrib : gmap string string;
      f_text : option string;
      f_children : list Element;
      f_ns : list (string * string)
    }.

Definition lookup_ns (prefix : string) (ns : list (string * string)) : option string :=
  snd <$> head (filter (λ pu, pu.1 = prefix) ns).

(** A qualified name, split at its first colon. *)
Definition split_qname (q : string) : option string * string :=
  let (a, b) := span (λ c, negb (bool_decide (c = ":"%char))) q in
  match b with
  | String _ l => (Some a, l)
  | EmptyString => (None, a)
  end.

Definition declarations (attrs : list (string * string)) : list (string * string) :=
  omap (λ kv, match split_qname kv.1 with
              | (Some p, l) => if bool_decide (p = "xmlns") then Some (l, kv.2) else None
              | (None, l) => if bool_decide (l = "xmlns") then Some (EmptyString, kv.2) else None
              end) attrs.

Definition is_declaration (kv : string * string) : bool :=
  match split_qname kv.1 with
  | (Some p, _) => bool_decide (p = "xmlns")
  | (None, l) => bool_decide (l = "xmlns")
  end.

Definition universal (uri l : string) : string := "{" +:+ uri +:+ "}" +:+ l.

Definition resolve_tag (ns : list (string * string)) (q : string) : option string :=
  match split_qname q with
  | (Some p, l) => u ← lookup_ns p ns; Some (universal u l)
  | (None, l) =>
      match lookup_ns EmptyString ns with
      | Some u => Some (if bool_decide (u = EmptyString) then l else universal u l)
      | None => Some l
      end
  end.

Definition resolve_attr (ns : list (string * string)) (q : string) : option string :=
  match split_qname q with
  | (Some p, l) => u ← lookup_ns p ns; Some (universal u l)
  | (None, l) => Some l
  end.

Fixpoint resolve_attrs (ns : list (string * string)) (attrs : list (string * string))
  : option (gmap string string) :=
  match attrs with
  | [] => Some ∅
  | (k, v) :: attrs' =>
      m ← resolve_attrs ns attrs';
      k' ← resolve_attr ns k;
      if bool_decide (is_Some (m !! k')) then None else Some (<[k' := v]> m)
  end.

Definition all_space (s : string) : bool :=
  bool_decide ((span is_space s).2 = EmptyString).

Definition close (f : frame) : Element :=
  mkElement (f_tag f) (f_attrib f) (f_text f) (reverse (f_children f)).

Definition add_child (e : Element) (f : frame) : frame :=
  mkFrame (f_name f) (f_tag f) (f_attrib f) (f_text f) (e :: f_children f) (f_ns f).

(** Character data goes to [text] before the first child, and to a
    [tail] (not kept) after it. *)
Definition add_data (d : string) (f : frame) : frame :=
  match f_children f with
  | [] => mkFrame (f_name f) (f_tag f) (f_attrib f)
                  (Some (default EmptyString (f_text f) +:+ d)) [] (f_ns f)
  | _ => f
  end.

Definition xml_ns : list (string * string) :=
  [("xml", "http://www.w3.org/XML/1998/namespace")].

Fixpoint build (toks : list token) (stack : list frame) (root : option Element)
  : result Element :=
  match toks with
  | [] =>
      match stack, root with
      | [], Some e => Return e
      | _, _ => Raise (ParseError "no element found")
      end
  | CharData d :: toks' =>
      match stack with
      | f :: stack' => build toks' (add_data d f :: stack') root
      | [] =>
          if all_space d then build toks' [] root
          else Raise (ParseError (match root with
                                  | Some _ => "junk after document element"
                                  | None => "syntax error"
                                  end))
      end
  | EndTag name :: toks' =>
      match stack with
      | f :: stack' =>
          if bool_decide (f_name f = name) then
            match stack' with
            | parent :: rest => build toks' (add_child (close f) parent :: rest) root
            | [] => build toks' [] (Some (close f))
            end
          else Raise (ParseError "mismatched tag")
      | [] => Raise (ParseError "not well-formed (invalid token)")
      end
  | StartTag name attrs closed :: toks' =>
      match stack, root with
      | [], Some _ => Raise (ParseError "junk after document element")
      | _, _ =>
          let ns := declarations attrs ++ (match stack with
                                            | f :: _ => f_ns f
                                            | [] => xml_ns
                                            end) in
          match resolve_tag ns name,
                resolve_attrs ns (filter (λ kv, is_declaration kv = false) attrs) with
          | Some t, Some m =>
              let f := mkFrame name t m None [] ns in
              if closed then
                match stack with
                | parent :: rest => build toks' (add_child (close f) parent :: rest) root
                | [] => build toks' [] (Some (close f))
                end
              else build toks' (f :: stack) root
          | None, _ => Raise (ParseError "unbound prefix")
          | _, None => Raise (ParseError "duplicate attribute")
          end
      end
  end.

Definition fromstring (xml : string) : result Element :=
  match lex (S (String.length xml)) xml with
  | Some toks => build toks [] None
  | None => Raise (ParseError "not well-formed (invalid token)")
  end.

End XmlReader.

(** ** Derived notions used in the statements *)

(** The entry the component loop appends for [node]: it does not depend
    on the summary built so far. *)
Definition component_of (node : Element) : Component :=
  mkComponent (get "componentName" node) (get "uniqueName" node)
              (node_label (get "uniqueName" node) node)
              (add_hint node (scan_params (get "componentName" node) node))
              (schema_data <$> findall "metadata" node).

(** The schema elements in the order in which the loops visit them. *)
Definition visited_schemas (root : Element) : list Element :=
  findall "node" root ≫= findall "metadata".

(** The summary the [try] block builds when the parser returns [root]. *)
Definition extract (root : Element) : JobSummary :=
  let s := extract_job_name root initial_summary in
  let s := foldl (λ s node, extract_component node s) s (findall "node" root) in
  let s := foldl (λ s conn, append_connection (connection_data conn) s) s
                 (findall "connection" root) in
  foldl (λ s note, append_note (get "text" note) s) s (findall "note" root).

(** The schema elements of the document that belong to a component, in
    document order: the [metadata] elements met below [elem] that have a
    [node] ancestor other than the root.  [inside] tells whether [elem]
    is itself a component or lies in one. *)
Fixpoint component_schemas_from (inside : bool) (elem : Element) : list Element :=
  (fix over (cs : list Element) : list Element :=
     match cs with
     | [] => []
     | c :: cs' =>
         (if inside && has_tag "metadata" c then [c] else [])
           ++ component_schemas_from (inside || has_tag "node" c) c
           ++ over cs'
     end) (children elem).

Definition component_schemas (root : Element) : list Element :=
  component_schemas_from false root.

(** The first element of [l] that carries [name]. *)
Definition first_named (name : string) (l : list Element) : option Element :=
  head (filter (λ e, get "name" e = Some name) l).

(** The promotion rules of the components that are not [tMap]:
    parameter name, promoted key. *)
Definition promotions : list (string * string) :=
  [("QUERY", "sql_query"); ("FILENAME", "filepath"); ("TABLE", "db_table_name")].

(** The keys the parameter loop can write besides the parameter's own
    name. *)
Definition loop_keys : list string :=
  ["sql_query"; "filepath"; "db_table_name"; "tMap_variables_raw"; "tMap_outputs_raw"].

(** All the keys written besides a parameter's own name. *)
Definition promoted_keys : list string := loop_keys ++ ["hint"].

(** [s] between double quotes. *)
Definition quoted (s : string) : string :=
  String quote (s +:+ String quote EmptyString).

(** Structural induction on elements, with the hypothesis on every
    child. *)
Fixpoint Element_ind (P : Element → Prop)
    (step : ∀ t a x cs, Forall P cs → P (mkElement t a x cs))
    (e : Element) : P e :=
  match e with
  | mkElement t a x cs =>
      step t a x cs
           ((fix over (l : list Element) : Forall P l :=
               match l with
               | [] => List.Forall_nil P
               | c :: l' => List.Forall_cons P c l' (Element_ind P step c) (over l')
               end) cs)
  end.

(** ** Sample documents *)

Module Samples.

(** An element given by the list of its attributes. *)
Definition element (t : string) (attrs : list (string * string))
    (x : option string) (cs : list Element) : Element :=
  mkElement t (list_to_map attrs) x cs.

(** A file-input component with a quoted file name and no label. *)
Definition file_input_xml : string :=
  "<job><node componentName='tFileInputFile' uniqueName='tFileInputFile_1'><elementParameter field='FILE' name='FILENAME' value='&quot;/data/in.csv&quot;'/></node></job>".

Definition filename_param : Element :=
  element "elementParameter"
          [("field", "FILE"); ("name", "FILENAME"); ("value", quoted "/data/in.csv")]
          None [].

Definition file_input_node : Element :=
  element "node"
          [("componentName", "tFileInputFile"); ("uniqueName", "tFileInputFile_1")]
          None [filename_param].

Definition file_input_root : Element := element "job" [] None [file_input_node].

(** A database-input component with a quoted query. *)
Definition query_xml : string :=
  "<job><node componentName='tDBInput' uniqueName='tDBInput_1'><elementParameter field='MEMO_SQL' name='QUERY' value='&quot;SELECT 1&quot;'/></node></job>".

Definition query_param : Element :=
  element "elementParameter"
          [("field", "MEMO_SQL"); ("name", "QUERY"); ("value", quoted "SELECT 1")]
          None [].

Definition query_node : Element :=
  element "node" [("componentName", "tDBInput"); ("uniqueName", "tDBInput_1")]
          None [query_param].

Definition query_root : Element := element "job" [] None [query_node].

(** The same query parameter in a [tMap] component. *)
Definition tmap_query_xml : string :=
  "<job><node componentName='tMap' uniqueName='tMap_1'><elementParameter field='MEMO_SQL' name='QUERY' value='&quot;SELECT 1&quot;'/></node></job>".

Definition tmap_query_node : Element :=
  element "node" [("componentName", "tMap"); ("uniqueName", "tMap_1")]
          None [query_param].

Definition tmap_query_root : Element := element "job" [] None [tmap_query_node].

(** A query parameter whose value is the empty string. *)
Definition empty_query_xml : string :=
  "<job><node componentName='tDBInput' uniqueName='tDBInput_1'><elementParameter field='MEMO_SQL' name='QUERY' value=''/></node></job>".

Definition empty_query_node : Element :=
  element "node" [("componentName", "tDBInput"); ("uniqueName", "tDBInput_1")] None
    [element "elementParameter"
             [("field", "MEMO_SQL"); ("name", "QUERY"); ("value", "")] None []].

Definition empty_query_root : Element := element "job" [] None [empty_query_node].

(** Two components whose schemas share the name [row1]. *)
Definition two_schemas_xml : string :=
  "<job><node componentName='tRowGenerator' uniqueName='tRowGenerator_1'><metadata connector='FLOW' name='row1'><column name='id' type='id_Integer' key='true'/></metadata></node><node componentName='tLogRow' uniqueName='tLogRow_1'><metadata connector='FLOW' name='row1'><column name='label' type='id_String'/></metadata></node></job>".

Definition id_column : Element :=
  element "column" [("name", "id"); ("type", "id_Integer"); ("key", "true")] None [].

Definition label_column : Element :=
  element "column" [("name", "label"); ("type", "id_String")] None [].

Definition first_schema : Element :=
  element "metadata" [("connector", "FLOW"); ("name", "row1")] None [id_column].

Definition second_schema : Element :=
  element "metadata" [("connector", "FLOW"); ("name", "row1")] None [label_column].

Definition two_schemas_root : Element :=
  element "job" [] None
    [element "node"
             [("componentName", "tRowGenerator"); ("uniqueName", "tRowGenerator_1")]
             None [first_schema];
     element "node" [("componentName", "tLogRow"); ("uniqueName", "tLogRow_1")]
             None [second_schema]].

(** A component with a label, an activation flag and a parameter that
    has no [field]. *)
Definition labelled_xml : string :=
  "<job><node componentName='tLogRow' uniqueName='tLogRow_1'><elementParameter field='TEXT' name='LABEL' value='&quot;MyStep&quot;'/><elementParameter field='CHECK' name='ACTIVATE' value='true'/><elementParameter name='SEPARATOR' value=';'/></node></job>".

Definition labelled_node : Element :=
  element "node" [("componentName", "tLogRow"); ("uniqueName", "tLogRow_1")] None
    [element "elementParameter"
             [("field", "TEXT"); ("name", "LABEL"); ("value", quoted "MyStep")] None [];
     element "elementParameter"
             [("field", "CHECK"); ("name", "ACTIVATE"); ("value", "true")] None [];
     element "elementParameter" [("name", "SEPARATOR"); ("value", ";")] None []].

Definition labelled_root : Element := element "job" [] None [labelled_node].

(** A node with no attribute at all. *)
Definition anonymous_xml : string := "<job><node/></job>".

Definition anonymous_node : Element := element "node" [] None [].

Definition anonymous_root : Element := element "job" [] None [anonymous_node].

(** A document whose last tag is never closed. *)
Definition unclosed_xml : string := "<job><node>".

(** A job with its properties and a [tMap] component. *)
Definition talend_xml : string :=
  "<?xml version='1.0' encoding='UTF-8'?><talendfile:ProcessType xmlns:talendfile='platform:/resource/org.talend.model/model/TalendFile.xsd' xmlns:xmi='http://www.omg.org/XMI' xmi:version='2.0'><TalendProperties:Property xmlns:TalendProperties='http://www.talend.org/properties' label='my_job'/><node componentName='tMap' uniqueName='tMap_1'><elementParameter name='VAR_TABLE'/><elementParameter field='TEXT' name='HINT' value='&quot;joins&quot;'/></node><connection source='tMap_1' target='tLogRow_1' connectorName='FLOW'/><note text='draft'/></talendfile:ProcessType>".

(** A parameter with text content and a [value] attribute. *)
Definition text_param : Element :=
  element "elementParameter"
          [("field", "MEMO_SQL"); ("name", "QUERY"); ("value", "SELECT 0")]
          (Some "SELECT 2") [].

(** The file-input component as the document element itself. *)
Definition lone_file_input_xml : string :=
  "<node componentName='tFileInputFile' uniqueName='tFileInputFile_1'><elementParameter field='FILE' name='FILENAME' value='&quot;/data/in.csv&quot;'/></node>".

(** The node with no attribute as the document element itself. *)
Definition lone_anonymous_xml : string := "<node/>".

End Samples.

(** ** Further notions for the extractor *)

(** The two keys of a [tMap] component that keep a value verbatim. *)
Definition raw_keys : list string := ["tMap_variables_raw"; "tMap_outputs_raw"].

(** The rules of a [tMap] component: parameter name, raw key. *)
Definition raw_rules : list (string * string) :=
  [("VAR_TABLE", "tMap_variables_raw"); ("OUTPUT_TABLES", "tMap_outputs_raw")].

(** [p] passes the test of the insertion under the name [k]. *)
Definition inserted_under (k : string) (p : Element) : Prop :=
  get "name" p = Some k
  ∧ truthy (get "field" p) = true
  ∧ is_Some (param_value p)
  ∧ k ≠ ""
  ∧ denylisted k = false.

#[global] Instance inserted_under_dec (k : string) (p : Element) :
  Decision (inserted_under k p).
Proof. unfold inserted_under. apply _. Defined.

(** What the loop stores for [p] under its name. *)
Definition inserted_value (p : Element) : option string :=
  strip_quotes <$> param_value p.

(** The attribute [key] of [e], when [e] is there and the attribute is a
    non-empty string. *)
Definition nonempty_attr (key : string) (e : option Element) : option string :=
  match e ≫= get key with
  | Some v => if truthy (Some v) then Some v else None
  | None => None
  end.

Module MoreSamples.

Import Samples.

(** A node whose [HINT] parameter has both text and a [value], next to a
    parameter that is itself named [hint]; its label is overridden. *)
Definition hinted_node : Element :=
  element "node" [("componentName", "tLogRow"); ("uniqueName", "tLogRow_1")] None
    [element "elementParameter"
             [("field", "TEXT"); ("name", "hint"); ("value", "lower")] None [];
     element "elementParameter"
             [("field", "TEXT"); ("name", "LABEL"); ("value", quoted "MyStep")]
             (Some "ignored") [];
     element "elementParameter"
             [("field", "TEXT"); ("name", "HINT"); ("value", quoted "from attribute")]
             (Some "from text") []].

Definition hinted_root : Element := element "job" [] None [hinted_node].

Definition hinted_xml : string :=
  "<job><node componentName='tLogRow' uniqueName='tLogRow_1'><elementParameter field='TEXT' name='hint' value='lower'/><elementParameter field='TEXT' name='LABEL' value='&quot;MyStep&quot;'>ignored</elementParameter><elementParameter field='TEXT' name='HINT' value='&quot;from attribute&quot;'>from text</elementParameter></node></job>".

(** A [tMap] node with a quoted variable table and an output table that
    has no value. *)
Definition var_table_param : Element :=
  element "elementParameter"
          [("field", "TABLE"); ("name", "VAR_TABLE"); ("value", quoted "Var")] None [].

Definition output_tables_param : Element :=
  element "elementParameter" [("name", "OUTPUT_TABLES")] None [].

Definition tmap_node : Element :=
  element "node" [("componentName", "tMap"); ("uniqueName", "tMap_1")] None
    [var_table_param; output_tables_param].

Definition tmap_root : Element := element "job" [] None [tmap_node].

Definition tmap_xml : string :=
  "<job><node componentName='tMap' uniqueName='tMap_1'><elementParameter field='TABLE' name='VAR_TABLE' value='&quot;Var&quot;'/><elementParameter name='OUTPUT_TABLES'/></node></job>".

(** A job whose first [Property] element has no label while a later one
    has, with a named [processType]; connections, a note without text,
    and a schema outside any node. *)
Definition properties_root : Element :=
  element "job" [] None
    [element Property_tag [] None [];
     element Property_tag [("label", "late_label")] None [];
     element "processType" [("name", "from_process")] None [];
     element "metadata" [("name", "orphan")] None [];
     element "connection" [("source", "a"); ("target", "missing"); ("lineStyle", "0")]
             None [];
     element "note" [] None [];
     element "note" [("text", "second")] None []].

Definition properties_xml : string :=
  "<job xmlns:p='http://www.talend.org/properties'><p:Property/><p:Property label='late_label'/><processType name='from_process'/><metadata name='orphan'/><connection source='a' target='missing' lineStyle='0'/><note/><note text='second'/></job>".

(** A job whose first [Property] element has a label, with a named
    [processType]. *)
Definition named_root : Element :=
  element "job" [] None
    [element Property_tag [("label", "first_label")] None [];
     element "processType" [("name", "from_process")] None []].

Definition named_xml : string :=
  "<job xmlns:p='http://www.talend.org/properties'><p:Property label='first_label'/><processType name='from_process'/></job>".

(** Two parameters of the same name; the second one wins. *)
Definition twice_node : Element :=
  element "node" [("componentName", "tLogRow"); ("uniqueName", "tLogRow_1")] None
    [element "elementParameter"
             [("field", "TEXT"); ("name", "SEPARATOR"); ("value", quoted ";")] None [];
     element "elementParameter"
             [("field", "TEXT"); ("name", "SEPARATOR"); ("value", quoted (quoted "|"))]
             None []].

Definition twice_root : Element := element "job" [] None [twice_node].

Definition twice_xml : string :=
  "<job><node componentName='tLogRow' uniqueName='tLogRow_1'><elementParameter field='TEXT' name='SEPARATOR' value='&quot;;&quot;'/><elementParameter field='TEXT' name='SEPARATOR' value='&quot;&quot;|&quot;&quot;'/></node></job>".

End MoreSamples.

(** ** The SQL blocks of a generated text

    [create_dbt_project_files] and [convert] (and the [convert] of
    app.py and new.py) take the fenced blocks out of the generated text
    with one regular expression: three backquotes, an optional [sql], a
    newline, the block (as short as possible, any character allowed), a
    newline and three backquotes. *)

Module Re.

(** [s] without its prefix [pat]. *)
Fixpoint strip_prefix (pat s : string) : option string :=
  match pat, s with
  | EmptyString, _ => Some s
  | String a pat', String b s' =>
      if bool_decide (a = b) then strip_prefix pat' s' else None
  | _, _ => None
  end.

(** The text before the first occurrence of [pat], and the text after
    it. *)
Fixpoint split_first (pat s : string) : option (string * string) :=
  match strip_prefix pat s with
  | Some r => Some (EmptyString, r)
  | None =>
      match s with
      | String c s' =>
          match split_first pat s' with
          | Some (a, r) => Some (String c a, r)
          | None => None
          end
      | EmptyString => None
      end
  end.

Definition backquote : ascii := "`"%char.

Definition newline : ascii := "010"%char.

Definition fence : string :=
  String backquote (String backquote (String backquote EmptyString)).

(** The end of a block: a newline and a fence. *)
Definition closing : string := String newline fence.

(** A match of the expression at the very start of [s]: the block and
    the text after the match.  The optional [sql] is tried first; when
    it is there, leaving it out cannot match, since a newline must
    follow the fence. *)
Definition match_at (s : string) : option (string * string) :=
  match strip_prefix fence s with
  | Some r1 =>
      match strip_prefix ("sql" +:+ String newline EmptyString) r1 with
      | Some body => split_first closing body
      | None =>
          match strip_prefix (String newline EmptyString) r1 with
          | Some body => split_first closing body
          | None => None
          end
      end
  | None => None
  end.

(** [re.findall]: the matches from left to right, the search resuming
    after a match, or one character further when there is none. *)
Fixpoint findall_from (fuel : nat) (s : string) : list string :=
  match fuel with
  | O => []
  | S fuel =>
      match match_at s with
      | Some (block, rest) => block :: findall_from fuel rest
      | None =>
          match s with
          | String _ s' => findall_from fuel s'
          | EmptyString => []
          end
      end
  end.

Definition findall_fenced (s : string) : list string :=
  findall_from (String.length s) s.

End Re.

(** The encodings of the characters that [str.strip()] removes. *)
Definition whitespace1 (a : ascii) : bool :=
  let n := nat_of_ascii a in
  ((9 <=? n)%nat && (n <=? 13)%nat) || ((28 <=? n)%nat && (n <=? 32)%nat).

Definition whitespace2 (a b : ascii) : bool :=
  (nat_of_ascii a =? 194)%nat
  && ((nat_of_ascii b =? 133)%nat || (nat_of_ascii b =? 160)%nat).

Definition whitespace3 (a b c : ascii) : bool :=
  let '(x, y, z) := (nat_of_ascii a, nat_of_ascii b, nat_of_ascii c) in
  ((x =? 225)%nat && (y =? 154)%nat && (z =? 128)%nat)
  || ((x =? 226)%nat && (y =? 128)%nat
      && (((128 <=? z)%nat && (z <=? 138)%nat)
          || (z =? 168)%nat || (z =? 169)%nat || (z =? 175)%nat))
  || ((x =? 226)%nat && (y =? 129)%nat && (z =? 159)%nat)
  || ((x =? 227)%nat && (y =? 128)%nat && (z =? 128)%nat).

(** The leading whitespace removed; [rev] tells that the bytes of the
    string, and so of each character, come in reverse order. *)
Fixpoint lstrip_space (rev : bool) (s : string) : string :=
  match s with
  | String a r1 =>
      if whitespace1 a then lstrip_space rev r1 else
        match r1 with
        | String b r2 =>
            if (if rev then whitespace2 b a else whitespace2 a b)
            then lstrip_space rev r2 else
              match r2 with
              | String c r3 =>
                  if (if rev then whitespace3 c b a else whitespace3 a b c)
                  then lstrip_space rev r3 else s
              | EmptyString => s
              end
        | EmptyString => s
        end
  | EmptyString => EmptyString
  end.

(** [block.strip()] *)
Definition strip_space (s : string) : string :=
  String.rev (lstrip_space true (String.rev (lstrip_space false s))).

(** [sql_blocks]: the fenced blocks, or the whole text when there is
    none. *)
Definition sql_blocks (dbt_content : string) : list string :=
  match Re.findall_fenced dbt_content with
  | [] => [dbt_content]
  | blocks => blocks
  end.

(** What the loop writes for the block number [i]. *)
Definition model_text (i : nat) (block : string) : string :=
  "-- dbt model #" +:+ pretty i +:+ String Re.newline EmptyString
    +:+ strip_space block
    +:+ String Re.newline (String Re.newline EmptyString).

(** The text of the SQL file: the blocks, numbered from [start]. *)
Fixpoint write_models (start : nat) (blocks : list string) : string :=
  match blocks with
  | [] => EmptyString
  | block :: blocks' => model_text start block +:+ write_models (S start) blocks'
  end.

Definition sql_file_text (dbt_content : string) : string :=
  write_models 1 (sql_blocks dbt_content).

(** A chunk of generated text: some prose, then a block between
    fences, opened with or without [sql]. *)
Definition fenced (prose : string) (with_sql : bool) (block : string) : string :=
  prose +:+ Re.fence +:+ (if with_sql then "sql" else EmptyString)
    +:+ String Re.newline EmptyString +:+ block +:+ Re.closing.

(** A generated text made of such chunks and some closing prose. *)
Fixpoint fenced_text (chunks : list (string * bool * string)) (tail : string)
  : string :=
  match chunks with
  | [] => tail
  | (prose, with_sql, block) :: chunks' =>
      fenced prose with_sql block +:+ fenced_text chunks' tail
  end.

Definition no_backquote (s : string) : Prop :=
  Forall (λ c, c ≠ Re.backquote) (String.list_ascii_of_string s).

#[global] Instance no_backquote_dec (s : string) : Decision (no_backquote s).
Proof. unfold no_backquote. apply _. Defined.

(** [pat] does not occur in [s]. *)
Definition free_of (pat s : string) : Prop := Re.split_first pat s = None.

#[global] Instance free_of_dec (pat s : string) : Decision (free_of pat s).
Proof. unfold free_of. apply _. Defined.

(** * Properties *)

(** ** The tree and its searches *)

Section Tree.

Lemma iter_unfold (e : Element) : iter e = e :: descendants e.
Proof.
  by destruct e.
Qed.

Lemma descendants_unfold (e : Element) :
  descendants e = children e ≫= λ c, c :: descendants c.
Proof.
  unfold descendants at 1, iter_all.
  induction (children e) as [|c cs IH]; [done|].
  by rewrite !bind_cons, IH, iter_unfold.
Qed.

Lemma findall_unfold (t : string) (e : Element) :
  findall t e =
    children e ≫= λ c, (if has_tag t c then [c] else []) ++ findall t c.
Proof.
  unfold findall at 1. rewrite descendants_unfold.
  induction (children e) as [|c cs IH]; [done|].
  rewrite !bind_cons, filter_app, IH. f_equal.
  rewrite filter_cons. unfold findall.
  destruct (has_tag t c); by case_decide.
Qed.

Lemma component_schemas_from_unfold (inside : bool) (e : Element) :
  component_schemas_from inside e =
    children e ≫= λ c,
        (if inside && has_tag "metadata" c then [c] else [])
          ++ component_schemas_from (inside || has_tag "node" c) c.
Proof.
  destruct e as [t a x cs]. simpl.
  induction cs as [|c cs IH]; [done|].
  by rewrite bind_cons, IH, <- app_assoc.
Qed.

(** A descendant of a descendant is a descendant. *)
Lemma descendants_trans (e d x : Element) :
  d ∈ descendants e → x ∈ descendants d → x ∈ descendants e.
Proof.
  revert d x. induction e as [t a y cs IH] using Element_ind.
  intros d x. rewrite (descendants_unfold (mkElement _ _ _ _)). simpl.
  rewrite !list_elem_of_bind. intros (c & Hd & Hc) Hx.
  exists c. split; [|done].
  apply elem_of_cons in Hd as [->|Hd]; [by right|].
  right. rewrite Forall_forall in IH. by eapply IH.
Qed.

Lemma findall_descendant (t : string) (e d x : Element) :
  d ∈ descendants e → x ∈ findall t d → x ∈ findall t e.
Proof.
  unfold findall. rewrite !list_elem_of_filter.
  intros Hd [Ht Hx]. split; [done|]. by eapply descendants_trans.
Qed.

(** Inside a component every [metadata] element counts. *)
Lemma component_schemas_inside (e : Element) :
  component_schemas_from true e = findall "metadata" e.
Proof.
  induction e as [t a y cs IH] using Element_ind.
  rewrite component_schemas_from_unfold, findall_unfold. simpl.
  induction IH as [|c cs Hc _ IHcs]; [done|].
  by rewrite !bind_cons, IHcs, Hc.
Qed.

End Tree.

(** ** Visiting order and document order *)

Section VisitingOrder.

Context (P : Element → Prop) `{!∀ x, Decision (P x)}.

(** Elements that occur again later do not change the first match. *)
Lemma head_filter_app_again (l1 l2 : list Element) :
  (∀ x, x ∈ l2 → x ∈ l1) →
  head (filter P (l1 ++ l2)) = head (filter P l1).
Proof.
  intros Hsub. rewrite filter_app, head_app.
  destruct (head (filter P l1)) eqn:Hhead; [done|].
  apply head_None in Hhead. apply head_None. apply elem_of_nil_inv.
  intros x [HP Hx]%list_elem_of_filter.
  apply (not_elem_of_nil x). rewrite <- Hhead.
  apply list_elem_of_filter. auto.
Qed.

Lemma visited_schemas_unfold (e : Element) :
  visited_schemas e =
    children e ≫= λ c,
        (if has_tag "node" c then findall "metadata" c else [])
          ++ visited_schemas c.
Proof.
  unfold visited_schemas at 1. rewrite findall_unfold.
  induction (children e) as [|c cs IH]; [done|].
  rewrite !bind_cons, !bind_app, IH. f_equal. f_equal.
  destruct (has_tag "node" c); [|done]. by rewrite bind_singleton.
Qed.

Lemma visited_schemas_below (e x : Element) :
  x ∈ visited_schemas e → x ∈ findall "metadata" e.
Proof.
  unfold visited_schemas. rewrite list_elem_of_bind.
  intros (d & Hx & Hd). apply list_elem_of_filter in Hd as [_ Hd].
  by eapply findall_descendant.
Qed.

(** The loops meet the first match of the document first: a component
    nested in another one only repeats schemas the outer one has
    already shown. *)
Lemma first_visited (e : Element) :
  head (filter P (visited_schemas e)) = head (filter P (component_schemas e)).
Proof.
  unfold component_schemas.
  induction e as [t a y cs IH] using Element_ind.
  rewrite visited_schemas_unfold, component_schemas_from_unfold. simpl.
  induction IH as [|c cs Hc _ IHcs]; [done|].
  rewrite !bind_cons, !(filter_app _ _ (_ ≫= _)), !head_app, IHcs.
  destruct (has_tag "node" c) eqn:Hnode; simpl.
  - rewrite component_schemas_inside.
    by rewrite head_filter_app_again by apply visited_schemas_below.
  - by rewrite Hc.
Qed.

End VisitingOrder.

(** ** The [try] block as a function of the parsed tree *)

Section Body.

Lemma for_each_update {A : Type} (xs : list A)
    (f : A → JobSummary → JobSummary) (s : JobSummary) :
  for_each xs (λ x, update (f x)) s = (foldl (λ s x, f x s) s xs, Return tt).
Proof. revert s. induction xs as [|x xs IH]; intros s; [done|]. simpl. apply IH. Qed.

Lemma scan_metadata_foldl (c : Component) (s : JobSummary) (ms : list Element) :
  foldl scan_metadata (c, s) ms =
    (mkComponent (comp_type c) (comp_unique_name c) (comp_label c)
                 (comp_parameters c) (comp_metadata c ++ (schema_data <$> ms)),
     set_metadata (foldl (λ m x, register_schema x m) (metadata s) ms) s).
Proof.
  revert c s. induction ms as [|m ms IH]; intros c s.
  - destruct c, s. simpl. by rewrite app_nil_r.
  - simpl. unfold scan_metadata at 2. rewrite IH. simpl.
    by rewrite <- app_assoc.
Qed.

Lemma extract_component_eq (node : Element) (s : JobSummary) :
  extract_component node s =
    append_component (component_of node)
      (set_metadata (foldl (λ m x, register_schema x m) (metadata s)
                           (findall "metadata" node)) s).
Proof. unfold extract_component. by rewrite scan_metadata_foldl. Qed.

Lemma extract_components_eq (nodes : list Element) (s : JobSummary) :
  foldl (λ s node, extract_component node s) s nodes =
    mkJobSummary (job_name s) (components s ++ (component_of <$> nodes))
                 (connections s)
                 (foldl (λ m x, register_schema x m) (metadata s)
                        (nodes ≫= findall "metadata"))
                 (notes s) (error s).
Proof.
  revert s. induction nodes as [|n nodes IH]; intros s.
  - destruct s. simpl. by rewrite app_nil_r.
  - rewrite bind_cons, foldl_app. simpl foldl at 1.
    rewrite IH, extract_component_eq. simpl. by rewrite <- app_assoc.
Qed.

Lemma extract_connections_eq (conns : list Element) (s : JobSummary) :
  foldl (λ s conn, append_connection (connection_data conn) s) s conns =
    mkJobSummary (job_name s) (components s)
                 (connections s ++ (connection_data <$> conns))
                 (metadata s) (notes s) (error s).
Proof.
  revert s. induction conns as [|c conns IH]; intros s.
  - destruct s. simpl. by rewrite app_nil_r.
  - simpl foldl at 1. rewrite IH. simpl. by rewrite <- app_assoc.
Qed.

Lemma extract_notes_eq (ns : list Element) (s : JobSummary) :
  foldl (λ s note, append_note (get "text" note) s) s ns =
    mkJobSummary (job_name s) (components s) (connections s) (metadata s)
                 (notes s ++ (get "text" <$> ns)) (error s).
Proof.
  revert s. induction ns as [|n ns IH]; intros s.
  - destruct s. simpl. by rewrite app_nil_r.
  - simpl foldl at 1. rewrite IH. simpl. by rewrite <- app_assoc.
Qed.

Lemma extract_job_name_eq (root : Element) (s : JobSummary) :
  extract_job_name root s =
    mkJobSummary (job_name (extract_job_name root s)) (components s)
                 (connections s) (metadata s) (notes s) (error s).
Proof.
  destruct s. unfold extract_job_name.
  repeat (case_match; simpl; try done).
Qed.

(** The summary of a parsed document, field by field. *)
Lemma extract_eq (root : Element) :
  extract root =
    {| job_name := job_name (extract_job_name root initial_summary);
       components := component_of <$> findall "node" root;
       connections := connection_data <$> findall "connection" root;
       metadata := foldl (λ m x, register_schema x m) ∅ (visited_schemas root);
       notes := get "text" <$> findall "note" root;
       error := None |}.
Proof.
  unfold extract.
  rewrite extract_notes_eq, extract_connections_eq, extract_components_eq.
  rewrite (extract_job_name_eq root initial_summary). done.
Qed.

Variable fromstring : string → result Element.

Lemma try_block_parsed (xml : string) (root : Element) (s : JobSummary) :
  fromstring xml = Return root →
  try_block fromstring xml s =
    (foldl (λ s note, append_note (get "text" note) s)
       (foldl (λ s conn, append_connection (connection_data conn) s)
          (foldl (λ s node, extract_component node s)
             (extract_job_name root s) (findall "node" root))
          (findall "connection" root))
       (findall "note" root), Return tt).
Proof.
  intros Hroot. unfold try_block, mbind, M_bind, call. rewrite Hroot.
  unfold update at 1.
  rewrite (for_each_update _ (λ node, extract_component node)).
  rewrite (for_each_update _ (λ conn, append_connection (connection_data conn))).
  by rewrite (for_each_update _ (λ note, append_note (get "text" note))).
Qed.

Lemma try_block_raised (xml : string) (e : exn) (s : JobSummary) :
  fromstring xml = Raise e → try_block fromstring xml s = (s, Raise e).
Proof. intros He. unfold try_block, mbind, M_bind, call. by rewrite He. Qed.

Lemma parse_parsed (xml : string) (root : Element) :
  fromstring xml = Return root →
  parse_talend_xml fromstring xml = Return (extract root).
Proof.
  intros Hroot. unfold parse_talend_xml, try_except.
  by rewrite (try_block_parsed _ _ _ Hroot).
Qed.

Lemma parse_raised (xml : string) (e : exn) :
  fromstring xml = Raise e →
  parse_talend_xml fromstring xml =
    Return (set_error (error_message e) initial_summary).
Proof.
  intros He. unfold parse_talend_xml, try_except.
  rewrite (try_block_raised _ _ _ He). by destruct e.
Qed.

End Body.

(** ** The parameter loop *)

Section ParameterLoop.

Implicit Types (component_name field name value : option string).
Implicit Types (params : gmap string (option string)) (k n v : string).

Local Ltac scan_cases :=
  unfold scan_with;
  repeat (case_bool_decide || case_match);
  simplify_eq/=.

(** One pass of the loop writes no key besides the parameter's name and
    the loop keys. *)
Lemma scan_with_other component_name field name value params k :
  name ≠ Some k → k ∉ loop_keys →
  scan_with component_name field name value params !! k = params !! k.
Proof.
  intros Hname Hk. unfold loop_keys in Hk.
  rewrite !not_elem_of_cons in Hk. destruct Hk as (?&?&?&?&?&_).
  scan_cases; rewrite ?lookup_insert_ne by congruence; done.
Qed.

(** Without a [field], the parameter's name is not written either. *)
Lemma scan_with_no_field component_name field name value params k :
  truthy field = false → k ∉ loop_keys →
  scan_with component_name field name value params !! k = params !! k.
Proof.
  intros Hfield Hk. unfold loop_keys in Hk.
  rewrite !not_elem_of_cons in Hk. destruct Hk as (?&?&?&?&?&_).
  unfold scan_with. rewrite Hfield. simpl.
  repeat (case_bool_decide || case_match); simplify_eq/=;
    rewrite ?lookup_insert_ne by congruence; done.
Qed.

(** One pass of the loop writes no denylisted key. *)
Lemma scan_with_denylisted component_name field name value params k :
  denylisted k = true →
  scan_with component_name field name value params !! k = params !! k.
Proof.
  intros Hk.
  assert (∀ k', denylisted k' = false → k' ≠ k) as Hne by (intros k' ? ->; congruence).
  scan_cases;
    rewrite ?lookup_insert_ne
      by (first [ by apply Hne
                | apply Hne; match goal with
                             | H : _ && negb (denylisted _) = true |- _ =>
                                 apply andb_prop in H as [_ H];
                                 by apply negb_true_iff in H
                             end ]);
    done.
Qed.

(** A promotion rule fires on a non-empty value outside [tMap], after
    the insertion under the parameter's own name. *)
Lemma scan_with_promotes component_name field n k v params :
  component_name ≠ Some "tMap" → (n, k) ∈ promotions → v ≠ "" →
  let params' := scan_with component_name field (Some n) (Some v) params in
  params' !! k = Some (Some (strip_quotes v))
  ∧ (truthy field = true → params' !! n = Some (Some (strip_quotes v))).
Proof.
  intros Hcn Hnk Hv. unfold promotions in Hnk.
  assert (truthy (Some v) = true) as Htv
      by (simpl; by rewrite bool_decide_eq_false_2).
  rewrite !elem_of_cons, elem_of_nil in Hnk.
  destruct Hnk as [?|[?|[?|[]]]]; simplify_eq; simpl;
    unfold scan_with; rewrite (bool_decide_eq_false_2 _ Hcn), Htv; simpl;
    (split; [by rewrite lookup_insert_eq|]);
    intros ->; simpl; rewrite lookup_insert_ne by done;
    by rewrite lookup_insert_eq.
Qed.

(** Outside [tMap], a promoted key and its parameter name are written
    only by parameters of one of these two names. *)
Lemma scan_with_keeps component_name field name value n k params :
  component_name ≠ Some "tMap" → (n, k) ∈ promotions →
  name ≠ Some n → name ≠ Some k →
  let params' := scan_with component_name field name value params in
  params' !! k = params !! k ∧ params' !! n = params !! n.
Proof.
  intros Hcn Hnk Hn Hk. unfold promotions in Hnk.
  rewrite !elem_of_cons, elem_of_nil in Hnk.
  destruct Hnk as [?|[?|[?|[]]]]; simplify_eq; simpl;
    scan_cases; rewrite ?lookup_insert_ne by congruence; done.
Qed.

End ParameterLoop.

(** ** The parameters of a component *)

Section ComponentParameters.

Implicit Types (params : gmap string (option string)) (k n v : string).
Implicit Types (node p q : Element) (l : list Element).

Lemma scan_fold_denylisted component_name l params k :
  denylisted k = true →
  foldl (scan_param component_name) params l !! k = params !! k.
Proof.
  intros Hk. revert params. induction l as [|q l IH]; intros params; [done|].
  simpl. rewrite IH. by apply scan_with_denylisted.
Qed.

Lemma add_hint_other node params k :
  k ≠ "hint" → add_hint node params !! k = params !! k.
Proof.
  intros Hk. unfold add_hint. case_match; [|done].
  by rewrite lookup_insert_ne.
Qed.

Lemma parameters_denylisted node k :
  k ∈ denylist → comp_parameters (component_of node) !! k = None.
Proof.
  intros Hk. simpl.
  assert (denylisted k = true) as Hd by by apply bool_decide_eq_true.
  rewrite add_hint_other by (intros ->; by vm_compute in Hd).
  unfold scan_params. by rewrite scan_fold_denylisted.
Qed.

Lemma scan_fold_keeps component_name l params n k :
  component_name ≠ Some "tMap" → (n, k) ∈ promotions →
  Forall (λ q, get "name" q ≠ Some n ∧ get "name" q ≠ Some k) l →
  foldl (scan_param component_name) params l !! k = params !! k
  ∧ foldl (scan_param component_name) params l !! n = params !! n.
Proof.
  intros Hcn Hnk Hl. revert params.
  induction Hl as [|q l [Hn Hk] _ IH]; intros params; [done|].
  simpl. destruct (IH (scan_param component_name params q)) as [-> ->].
  by apply scan_with_keeps.
Qed.

(** The last parameter that addresses a promoted key decides it. *)
Lemma parameters_promoted node l1 p l2 n k v :
  get "componentName" node ≠ Some "tMap" → (n, k) ∈ promotions →
  findall "elementParameter" node = l1 ++ p :: l2 →
  get "name" p = Some n → param_value p = Some v → v ≠ "" →
  Forall (λ q, get "name" q ≠ Some n ∧ get "name" q ≠ Some k) l2 →
  comp_parameters (component_of node) !! k = Some (Some (strip_quotes v))
  ∧ (truthy (get "field" p) = true →
     comp_parameters (component_of node) !! n = Some (Some (strip_quotes v))).
Proof.
  intros Hcn Hnk Hl Hname Hvalue Hv Hl2. simpl.
  assert (k ≠ "hint" ∧ n ≠ "hint") as [Hk Hn].
  { unfold promotions in Hnk. rewrite !elem_of_cons, elem_of_nil in Hnk.
    destruct Hnk as [?|[?|[?|[]]]]; by simplify_eq. }
  rewrite !add_hint_other by done.
  unfold scan_params. rewrite Hl, foldl_app. simpl.
  destruct (scan_fold_keeps (get "componentName" node) l2
              (scan_param (get "componentName" node)
                 (foldl (scan_param (get "componentName" node)) ∅ l1) p)
              n k Hcn Hnk Hl2) as [-> ->].
  unfold scan_param. rewrite Hname, Hvalue.
  by apply scan_with_promotes.
Qed.

(** A name borne only by parameters without [field] is not a key,
    unless it is one of the promoted keys. *)
Lemma parameters_no_field node n :
  n ∉ promoted_keys →
  Forall (λ q, get "name" q = Some n → truthy (get "field" q) = false)
         (findall "elementParameter" node) →
  comp_parameters (component_of node) !! n = None.
Proof.
  intros Hn Hl. unfold promoted_keys in Hn.
  apply not_elem_of_app in Hn as [Hloop Hhint].
  rewrite list_elem_of_singleton in Hhint. simpl.
  rewrite add_hint_other by done. unfold scan_params.
  assert (∀ params, params !! n = None →
            foldl (scan_param (get "componentName" node)) params
                  (findall "elementParameter" node) !! n = None) as Hfold.
  { induction Hl as [|q l Hq _ IH]; intros params Hparams; [done|].
    simpl. apply IH. rewrite <- Hparams. unfold scan_param.
    destruct (decide (get "name" q = Some n)) as [Heq|Hne].
    - by apply scan_with_no_field; [apply Hq|].
    - by apply scan_with_other. }
  by apply Hfold.
Qed.

End ComponentParameters.

(** ** The job-level schema map *)

Section SchemaMap.

Implicit Types (m : gmap string (list Column)) (l : list Element).

Lemma register_schema_lookup x m (n : string) :
  n ≠ "" →
  register_schema x m !! n =
    match m !! n with
    | Some cols => Some cols
    | None => if decide (get "name" x = Some n)
              then Some (schema_columns x) else None
    end.
Proof.
  intros Hn. unfold register_schema.
  destruct (get "name" x) as [meta_name|] eqn:Hname.
  - destruct (decide (meta_name = n)) as [->|Hne].
    + rewrite decide_True by done. simpl.
      rewrite (bool_decide_eq_false_2 _ Hn). simpl.
      destruct (m !! n) as [cols|] eqn:Hm.
      * by rewrite bool_decide_eq_true_2 by done.
      * rewrite bool_decide_eq_false_2 by (by intros [? ?]). simpl.
        by rewrite lookup_insert_eq.
    + rewrite decide_False by congruence.
      case_match; [rewrite lookup_insert_ne by done|]; by destruct (m !! n).
  - rewrite decide_False by done. by destruct (m !! n).
Qed.

(** First schema seen under a name wins. *)
Lemma register_fold_lookup l m (n : string) :
  n ≠ "" →
  foldl (λ m x, register_schema x m) m l !! n =
    match m !! n with
    | Some cols => Some cols
    | None => schema_columns <$> first_named n l
    end.
Proof.
  intros Hn. revert m. induction l as [|x l IH]; intros m.
  - simpl. by destruct (m !! n).
  - simpl. rewrite IH, register_schema_lookup by done.
    unfold first_named. rewrite filter_cons.
    destruct (m !! n); [done|]. by case_decide.
Qed.

End SchemaMap.

(** ** The reader on the sample documents *)

Section SampleTrees.

Import Samples.

Lemma read_file_input : XmlReader.fromstring file_input_xml = Return file_input_root.
Proof. vm_compute. reflexivity. Qed.

Lemma read_query : XmlReader.fromstring query_xml = Return query_root.
Proof. vm_compute. reflexivity. Qed.

Lemma read_tmap_query :
  XmlReader.fromstring tmap_query_xml = Return tmap_query_root.
Proof. vm_compute. reflexivity. Qed.

Lemma read_empty_query :
  XmlReader.fromstring empty_query_xml = Return empty_query_root.
Proof. vm_compute. reflexivity. Qed.

Lemma read_two_schemas : XmlReader.fromstring two_schemas_xml = Return two_schemas_root.
Proof. vm_compute. reflexivity. Qed.

Lemma read_labelled : XmlReader.fromstring labelled_xml = Return labelled_root.
Proof. vm_compute. reflexivity. Qed.

Lemma read_anonymous : XmlReader.fromstring anonymous_xml = Return anonymous_root.
Proof. vm_compute. reflexivity. Qed.

Lemma read_unclosed :
  XmlReader.fromstring unclosed_xml = Raise (ParseError "no element found").
Proof. vm_compute. reflexivity. Qed.

Lemma read_lone_file_input :
  XmlReader.fromstring lone_file_input_xml = Return file_input_node.
Proof. vm_compute. reflexivity. Qed.

Lemma read_lone_anonymous :
  XmlReader.fromstring lone_anonymous_xml = Return anonymous_node.
Proof. vm_compute. reflexivity. Qed.

End SampleTrees.

(** ** The extractor on a sample job *)

Section SampleJob.

Import Samples.

Example strip_quotes_layers : strip_quotes (quoted (quoted "a")) = "a".
Proof. reflexivity. Qed.

Example strip_quotes_inside :
  strip_quotes ("a" +:+ quoted "b") = "a" +:+ String quote "b".
Proof. reflexivity. Qed.

Example talend_job :
  ∃ s c,
    parse_talend_xml XmlReader.fromstring talend_xml = Return s
    ∧ job_name s = "my_job"
    ∧ components s = [c]
    ∧ comp_type c = Some "tMap"
    ∧ comp_label c = Some "tMap_1"
    ∧ map_to_list (comp_parameters c)
      = [("tMap_variables_raw", None); ("hint", Some "joins"); ("HINT", Some "joins")]
    ∧ connections s
      = [mkConnection (Some "tMap_1") (Some "tLogRow_1") (Some "FLOW") None None]
    ∧ notes s = [Some "draft"]
    ∧ error s = None.
Proof.
  destruct (XmlReader.fromstring talend_xml) as [root|e] eqn:Hroot;
    [|by vm_compute in Hroot].
  exists (extract root), (component_of (default root (head (findall "node" root)))).
  split; [by apply parse_parsed|].
  vm_compute in Hroot. simplify_eq. vm_compute. by repeat split.
Qed.

End SampleJob.

(** ** The handlers *)

Section Handlers.

(** Whatever the body does, the [try] statement returns the dictionary
    in the state in which the body left it, with [error] added when the
    body raised. *)
Lemma try_except_keeps (body : M unit) (s0 : JobSummary) :
  ∃ s, try_except body s0 = Return s
       ∧ job_name s = job_name (body s0).1
       ∧ components s = components (body s0).1
       ∧ connections s = connections (body s0).1
       ∧ metadata s = metadata (body s0).1
       ∧ notes s = notes (body s0).1
       ∧ error s = match (body s0).2 with
                   | Return _ => error (body s0).1
                   | Raise e => Some (error_message e)
                   end.
Proof.
  unfold try_except. destruct (body s0) as [s1 [[]|[msg|msg]]]; simpl;
    eexists; (split; [reflexivity|]); by repeat split.
Qed.

(** A body that fails after an update keeps the update. *)
Example try_except_partial :
  try_except (update (set_job_name "job_a") ;;
              call (Raise (OtherException "boom"))) initial_summary
  = Return (mkJobSummary "job_a" [] [] ∅ []
              (Some "Unexpected error during XML parsing: boom")).
Proof. reflexivity. Qed.

Variable fromstring : string → result Element.

Lemma try_block_no_error (xml : string) :
  match (try_block fromstring xml initial_summary).2 with
  | Return _ => error (try_block fromstring xml initial_summary).1 = None
  | Raise e => (try_block fromstring xml initial_summary).1 = initial_summary
  end.
Proof.
  destruct (fromstring xml) as [root|e] eqn:Hparse.
  - rewrite (try_block_parsed _ _ _ _ Hparse). simpl.
    change (error (extract root) = None). by rewrite extract_eq.
  - by rewrite (try_block_raised _ _ _ _ Hparse).
Qed.

(** Claim C2.  For every input string, [parse_talend_xml] returns a
    summary and raises nothing: both handlers return.  The returned
    summary carries the job name, components, connections, metadata
    and notes that the [try] block had stored when it stopped, and its
    [error] is absent when the block completed and is the message of
    the handler when the block raised. *)
Theorem parse_talend_xml_never_raises (xml : string) :
  ∃ s, parse_talend_xml fromstring xml = Return s
       ∧ let stopped := try_block fromstring xml initial_summary in
         job_name s = job_name stopped.1
         ∧ components s = components stopped.1
         ∧ connections s = connections stopped.1
         ∧ metadata s = metadata stopped.1
         ∧ notes s = notes stopped.1
         ∧ error s = match stopped.2 with
                     | Return _ => None
                     | Raise e => Some (error_message e)
                     end.
Proof.
  destruct (try_except_keeps (try_block fromstring xml) initial_summary)
    as (s & Hs & Hj & Hc & Hn & Hm & Ho & He).
  exists s. split; [done|]. simpl. repeat (split; [done|]).
  rewrite He. pose proof (try_block_no_error xml) as Hno.
  by destruct ((try_block fromstring xml initial_summary).2).
Qed.

(** Claim C5.  When the parser rejects the input (a document that is
    not well formed raises [ParseError]), [parse_talend_xml] returns
    the summary with the job name [unknown_job], no component, no
    connection, no metadata, no note, and [error] set to the handler's
    message, which for a [ParseError] is [Failed to parse XML: ]
    followed by the parser's message. *)
Theorem malformed_input_summary (xml : string) (e : exn) :
  fromstring xml = Raise e →
  parse_talend_xml fromstring xml =
    Return {| job_name := "unknown_job";
              components := [];
              connections := [];
              metadata := ∅;
              notes := [];
              error := Some (error_message e) |}
  ∧ ∀ msg, e = ParseError msg → error_message e = "Failed to parse XML: " +:+ msg.
Proof.
  intros He. split; [by apply parse_raised|]. by intros msg ->.
Qed.

End Handlers.

Lemma malformed_input_summary_witness :
  parse_talend_xml XmlReader.fromstring Samples.unclosed_xml =
    Return (mkJobSummary "unknown_job" [] [] ∅ []
              (Some "Failed to parse XML: no element found")).
Proof.
  exact (proj1 (malformed_input_summary XmlReader.fromstring Samples.unclosed_xml
                  (ParseError "no element found") read_unclosed)).
Defined.

(** ** Well-formed documents *)

Section Documents.

Variable fromstring : string → result Element.

Lemma find_Some (t : string) (root e : Element) :
  find t root = Some e → e ∈ descendants root ∧ tag e = t.
Proof.
  unfold find, findall. intros He%head_Some_elem_of.
  apply list_elem_of_filter in He as [Ht He]. split; [done|].
  by apply bool_decide_eq_true in Ht.
Qed.

Lemma components_parsed (xml : string) (root : Element) :
  fromstring xml = Return root →
  ∃ s, parse_talend_xml fromstring xml = Return s
       ∧ components s = component_of <$> findall "node" root
       ∧ error s = None.
Proof.
  intros Hroot. exists (extract root).
  split; [by apply parse_parsed|]. by rewrite extract_eq.
Qed.

Lemma component_parsed (xml : string) (root node : Element) (i : nat) :
  fromstring xml = Return root → findall "node" root !! i = Some node →
  ∃ s, parse_talend_xml fromstring xml = Return s
       ∧ components s !! i = Some (component_of node)
       ∧ error s = None.
Proof.
  intros Hroot Hnode.
  destruct (components_parsed xml root Hroot) as (s & Hs & Hc & He).
  exists s. split; [done|]. split; [|done].
  by rewrite Hc, list_lookup_fmap, Hnode.
Qed.

(** Claim C4.  In the summary returned for a document, no name of the
    denylist is a key of the [parameters] of any component, whatever
    the values of the parameters. *)
Theorem denylist_never_a_key (xml : string) (s : JobSummary)
    (c : Component) (k : string) :
  parse_talend_xml fromstring xml = Return s →
  c ∈ components s → k ∈ denylist →
  comp_parameters c !! k = None.
Proof.
  intros Hs Hc Hk. destruct (fromstring xml) as [root|e] eqn:Hparse.
  - rewrite (parse_parsed _ _ _ Hparse) in Hs. simplify_eq.
    rewrite extract_eq in Hc. simpl in Hc.
    apply list_elem_of_fmap in Hc as (node & -> & _).
    by apply parameters_denylisted.
  - rewrite (parse_raised _ _ _ Hparse) in Hs. simplify_eq.
    simpl in Hc. by apply elem_of_nil in Hc.
Qed.

(** Claim C7.  For a well-formed document in which no element found
    under the Talend properties tag [Property] has a [label] attribute
    and no [processType] element has a [name] attribute, the returned
    job name is the sentinel [unknown_job]. *)
Theorem job_name_sentinel (xml : string) (root : Element) :
  fromstring xml = Return root →
  Forall (λ e, tag e = Property_tag → get "label" e = None) (descendants root) →
  Forall (λ e, tag e = "processType" → get "name" e = None) (descendants root) →
  ∃ s, parse_talend_xml fromstring xml = Return s
       ∧ job_name s = "unknown_job".
Proof.
  intros Hroot HP Hp. exists (extract root).
  split; [by apply parse_parsed|]. rewrite extract_eq. simpl.
  rewrite Forall_forall in HP. rewrite Forall_forall in Hp.
  unfold extract_job_name.
  destruct (find Property_tag root) as [job_info|] eqn:Hinfo.
  - apply find_Some in Hinfo as [Hin Htag]. rewrite (HP _ Hin Htag).
    destruct (find "processType" root) as [process_type|] eqn:Hproc; [|done].
    apply find_Some in Hproc as [Hin' Htag']. by rewrite (Hp _ Hin' Htag').
  - destruct (find "processType" root) as [process_type|] eqn:Hproc; [|done].
    apply find_Some in Hproc as [Hin' Htag']. by rewrite (Hp _ Hin' Htag').
Qed.

(** Claim C9, amended.  For a well-formed document, a node below the
    document element that lacks [componentName] or [uniqueName] still
    yields its component, at the node's position among the nodes below
    the document element, and [error] stays unset: the type is null
    when [componentName] is missing; the unique name is null when
    [uniqueName] is missing, and so is the label unless the first
    [LABEL] parameter of the node has a non-empty [value] attribute.
    A node that is the document element yields no component. *)
Theorem node_without_identity (xml : string) (root node : Element) (i : nat) :
  fromstring xml = Return root →
  findall "node" root !! i = Some node →
  ∃ s c, parse_talend_xml fromstring xml = Return s
         ∧ error s = None
         ∧ length (components s) = length (findall "node" root)
         ∧ components s !! i = Some c
         ∧ (get "componentName" node = None → comp_type c = None)
         ∧ (get "uniqueName" node = None →
            comp_unique_name c = None
            ∧ ((∀ p, find_attr "elementParameter" "name" "LABEL" node = Some p →
                     truthy (get "value" p) = false) →
               comp_label c = None)).
Proof.
  intros Hroot Hnode.
  destruct (components_parsed xml root Hroot) as (s & Hs & Hc & He).
  exists s, (component_of node). split; [done|]. split; [done|].
  split; [by rewrite Hc, length_fmap|].
  split; [by rewrite Hc, list_lookup_fmap, Hnode|].
  split; [done|]. intros Hu. split; [done|]. intros Hlabel. simpl.
  unfold node_label.
  destruct (find_attr "elementParameter" "name" "LABEL" node) as [p|]; simpl.
  - by rewrite (Hlabel p eq_refl).
  - done.
Qed.

End Documents.

Section DocumentParameters.

Variable fromstring : string → result Element.

(** Claim C6.  The value a parameter contributes, to the insertion
    under its name and to the promotion rules alike, is its text when
    the text is non-empty and its [value] attribute otherwise.  The
    parser never produces an empty text: an element without character
    data has the text [None]. *)
Theorem param_value_resolution (p : Element) :
  text p ≠ Some "" →
  param_value p = (if truthy (text p) then text p else get "value" p)
  ∧ ∀ component_name params,
      scan_param component_name params p =
        scan_with component_name (get "field" p) (get "name" p)
                  (if truthy (text p) then text p else get "value" p) params.
Proof.
  intros Htext.
  assert (param_value p = if truthy (text p) then text p else get "value" p) as Hv.
  { unfold param_value. destruct (text p) as [t|]; [|done]. simpl.
    rewrite bool_decide_eq_false_2; [done|]. by intros ->. }
  split; [done|]. intros component_name params. unfold scan_param. by rewrite Hv.
Qed.

(** Claim C1, as amended.  In a component that is not a [tMap], a
    parameter named [QUERY] (resp. [FILENAME], [TABLE]) with a
    non-empty value sets the key [sql_query] (resp. [filepath],
    [db_table_name]) to the value stripped of its quotes, and, when it
    has a non-empty [field], its own name to the same value as well.
    This holds for the dictionary right after the parameter is
    scanned, and for the component returned when no later parameter of
    the node bears that name or that key. *)
Theorem promotion_outside_tMap (xml : string) (root node : Element) (i : nat)
    (l1 : list Element) (p : Element) (l2 : list Element) (n k v : string) :
  fromstring xml = Return root →
  findall "node" root !! i = Some node →
  get "componentName" node ≠ Some "tMap" →
  (n, k) ∈ promotions →
  findall "elementParameter" node = l1 ++ p :: l2 →
  get "name" p = Some n → param_value p = Some v → v ≠ "" →
  Forall (λ q, get "name" q ≠ Some n ∧ get "name" q ≠ Some k) l2 →
  (∀ params,
      scan_param (get "componentName" node) params p !! k
        = Some (Some (strip_quotes v))
      ∧ (truthy (get "field" p) = true →
         scan_param (get "componentName" node) params p !! n
           = Some (Some (strip_quotes v))))
  ∧ ∃ s c, parse_talend_xml fromstring xml = Return s
           ∧ components s !! i = Some c
           ∧ comp_parameters c !! k = Some (Some (strip_quotes v))
           ∧ (truthy (get "field" p) = true →
              comp_parameters c !! n = Some (Some (strip_quotes v))).
Proof.
  intros Hroot Hnode Hcn Hnk Hl Hname Hvalue Hv Hl2. split.
  - intros params. unfold scan_param. rewrite Hname, Hvalue.
    by apply scan_with_promotes.
  - destruct (component_parsed fromstring xml root node i Hroot Hnode)
      as (s & Hs & Hc & _).
    exists s, (component_of node). split; [done|]. split; [done|].
    by eapply parameters_promoted.
Qed.

Lemma filter_none {A : Type} (P : A → Prop) `{!∀ x, Decision (P x)} (l : list A) :
  Forall (λ x, ¬ P x) l → filter P l = [].
Proof.
  induction 1 as [|x l Hx _ IH]; [done|]. by rewrite filter_cons_False.
Qed.

(** Claim C8, amended.  For a well-formed document in which exactly one
    node lies below the document element, with the component name
    [tFileInputFile] and the unique name [tFileInputFile_1], a
    parameter named [FILENAME] whose value is [/data/in.csv] in quotes
    (the parameter of the node that decides the file path) and no
    parameter named [LABEL], the summary has one component: its type is
    [tFileInputFile], its label is [tFileInputFile_1], and its
    [filepath] is [/data/in.csv], without the quotes.  The document
    element itself is not searched, so the node of the scenario has to
    lie below it. *)
Theorem file_input_scenario (xml : string) (root node : Element)
    (l1 : list Element) (p : Element) (l2 : list Element) :
  fromstring xml = Return root →
  findall "node" root = [node] →
  get "componentName" node = Some "tFileInputFile" →
  get "uniqueName" node = Some "tFileInputFile_1" →
  findall "elementParameter" node = l1 ++ p :: l2 →
  get "name" p = Some "FILENAME" →
  param_value p = Some (quoted "/data/in.csv") →
  Forall (λ q, get "name" q ≠ Some "FILENAME" ∧ get "name" q ≠ Some "filepath") l2 →
  Forall (λ q, get "name" q ≠ Some "LABEL") (findall "elementParameter" node) →
  ∃ s c, parse_talend_xml fromstring xml = Return s
         ∧ components s = [c]
         ∧ comp_type c = Some "tFileInputFile"
         ∧ comp_label c = Some "tFileInputFile_1"
         ∧ comp_parameters c !! "filepath" = Some (Some "/data/in.csv").
Proof.
  intros Hroot Hnodes Hcn Hun Hl Hname Hvalue Hl2 Hlabel.
  destruct (components_parsed fromstring xml root Hroot) as (s & Hs & Hc & _).
  exists s, (component_of node). split; [done|].
  split; [by rewrite Hc, Hnodes|]. split; [done|]. split.
  - simpl. unfold node_label, find_attr.
    by rewrite (filter_none _ _ Hlabel), Hun.
  - assert (get "componentName" node ≠ Some "tMap") as Hnot by by rewrite Hcn.
    assert (("FILENAME", "filepath") ∈ promotions) as Hrule
        by (unfold promotions; set_solver).
    assert (quoted "/data/in.csv" ≠ "") as Hne by done.
    by destruct (parameters_promoted node l1 p l2 _ _ _ Hnot Hrule Hl Hname
                   Hvalue Hne Hl2) as [-> _].
Qed.

(** Claim C10.  When every parameter of a node that bears the name [n]
    lacks a non-empty [field], scanning such a parameter changes no
    entry besides the promoted keys of the loop, and [n], unless it is
    itself a promoted key, is not a key of the component's parameters,
    whatever the values of these parameters. *)
Theorem no_field_no_generic_key (xml : string) (root node : Element) (i : nat)
    (n : string) :
  fromstring xml = Return root →
  findall "node" root !! i = Some node →
  n ∉ promoted_keys →
  Forall (λ q, get "name" q = Some n → truthy (get "field" q) = false)
         (findall "elementParameter" node) →
  (∀ p params k,
      p ∈ findall "elementParameter" node → get "name" p = Some n →
      k ∉ loop_keys →
      scan_param (get "componentName" node) params p !! k = params !! k)
  ∧ ∃ s c, parse_talend_xml fromstring xml = Return s
           ∧ components s !! i = Some c
           ∧ comp_parameters c !! n = None.
Proof.
  intros Hroot Hnode Hn Hl. split.
  - intros p params k Hp Hname Hk. rewrite Forall_forall in Hl.
    unfold scan_param. apply scan_with_no_field; [|done]. by apply Hl.
  - destruct (component_parsed fromstring xml root node i Hroot Hnode)
      as (s & Hs & Hc & _).
    exists s, (component_of node). split; [done|]. split; [done|].
    by apply parameters_no_field.
Qed.

(** Claim C3.  For a well-formed document and a non-empty name, the
    job-level metadata binds the name to the columns of the first
    schema of that name, in document order, among the schemas of the
    components; a later schema of the same name changes nothing there.
    The local metadata list of every component still holds all the
    schemas of its node. *)
Theorem first_schema_wins (xml : string) (root : Element) (n : string)
    (m : Element) :
  fromstring xml = Return root →
  n ≠ "" →
  first_named n (component_schemas root) = Some m →
  ∃ s, parse_talend_xml fromstring xml = Return s
       ∧ metadata s !! n = Some (schema_columns m)
       ∧ Forall2 (λ node c, comp_metadata c = schema_data <$> findall "metadata" node)
                 (findall "node" root) (components s).
Proof.
  intros Hroot Hn Hfirst. exists (extract root).
  split; [by apply parse_parsed|]. rewrite extract_eq. simpl. split.
  - rewrite register_fold_lookup, lookup_empty by done.
    unfold first_named in *. by rewrite first_visited, Hfirst.
  - apply Forall2_fmap_r. by apply Forall_Forall2_diag, Forall_true.
Qed.

End DocumentParameters.

(** ** The statements on the sample documents *)

Import Samples.

(** Claim C1 fails as stated.  In a [tMap] component a quoted [QUERY]
    parameter is inserted under its own name, but no [sql_query] key is
    added; and outside [tMap], a [QUERY] parameter whose value is the
    empty string, which is not null, is inserted under its own name
    without any [sql_query] key. *)
Lemma promotion_skipped_in_tMap :
  (∃ s c, parse_talend_xml XmlReader.fromstring tmap_query_xml = Return s
          ∧ components s = [c]
          ∧ comp_type c = Some "tMap"
          ∧ comp_parameters c !! "QUERY" = Some (Some "SELECT 1")
          ∧ comp_parameters c !! "sql_query" = None)
  ∧ (∃ s c, parse_talend_xml XmlReader.fromstring empty_query_xml = Return s
            ∧ components s = [c]
            ∧ comp_type c = Some "tDBInput"
            ∧ comp_parameters c !! "QUERY" = Some (Some "")
            ∧ comp_parameters c !! "sql_query" = None).
Proof.
  split.
  - exists (extract tmap_query_root), (component_of tmap_query_node).
    split; [exact (parse_parsed _ _ _ read_tmap_query)|].
    vm_compute. by repeat split.
  - exists (extract empty_query_root), (component_of empty_query_node).
    split; [exact (parse_parsed _ _ _ read_empty_query)|].
    vm_compute. by repeat split.
Qed.

(** Claim C8 fails as stated.  The document whose document element is
    the scenario's node is well-formed and contains exactly one node
    element, with the component name, the unique name and the
    [FILENAME] parameter of the scenario and no [LABEL] parameter; but
    the search [.//node] ranges over the elements below the document
    element, so it finds nothing and the summary has no component. *)
Lemma file_input_node_as_document :
  XmlReader.fromstring lone_file_input_xml = Return file_input_node
  ∧ filter (λ e, has_tag "node" e = true) (iter file_input_node) = [file_input_node]
  ∧ get "componentName" file_input_node = Some "tFileInputFile"
  ∧ get "uniqueName" file_input_node = Some "tFileInputFile_1"
  ∧ findall "elementParameter" file_input_node = [filename_param]
  ∧ get "name" filename_param = Some "FILENAME"
  ∧ param_value filename_param = Some (quoted "/data/in.csv")
  ∧ ∃ s, parse_talend_xml XmlReader.fromstring lone_file_input_xml = Return s
         ∧ error s = None
         ∧ components s = [].
Proof.
  split; [exact read_lone_file_input|].
  do 6 (split; [vm_compute; reflexivity|]).
  exists (extract file_input_node).
  split; [exact (parse_parsed _ _ _ read_lone_file_input)|].
  vm_compute. by split.
Qed.

(** Claim C9 fails as stated.  The document whose document element is a
    node without [componentName] and [uniqueName] is well-formed and
    contains that node, and extraction succeeds without an error; but
    the search [.//node] ranges over the elements below the document
    element, so no component is appended for it. *)
Lemma anonymous_node_as_document :
  XmlReader.fromstring lone_anonymous_xml = Return anonymous_node
  ∧ anonymous_node ∈ filter (λ e, has_tag "node" e = true) (iter anonymous_node)
  ∧ get "componentName" anonymous_node = None
  ∧ get "uniqueName" anonymous_node = None
  ∧ ∃ s, parse_talend_xml XmlReader.fromstring lone_anonymous_xml = Return s
         ∧ error s = None
         ∧ components s = [].
Proof.
  split; [exact read_lone_anonymous|].
  split; [vm_compute; apply list_elem_of_here|].
  do 2 (split; [vm_compute; reflexivity|]).
  exists (extract anonymous_node).
  split; [exact (parse_parsed _ _ _ read_lone_anonymous)|].
  vm_compute. by split.
Qed.

Lemma promotion_outside_tMap_witness :
  ∃ s c, parse_talend_xml XmlReader.fromstring query_xml = Return s
         ∧ components s !! 0 = Some c
         ∧ comp_parameters c !! "sql_query" = Some (Some "SELECT 1")
         ∧ comp_parameters c !! "QUERY" = Some (Some "SELECT 1").
Proof.
  destruct (promotion_outside_tMap XmlReader.fromstring query_xml query_root
              query_node 0 [] query_param [] "QUERY" "sql_query" (quoted "SELECT 1"))
    as [_ (s & c & Hs & Hc & Hk & Hn)].
  - exact read_query.
  - vm_compute. reflexivity.
  - vm_compute. discriminate.
  - unfold promotions. set_solver.
  - vm_compute. reflexivity.
  - vm_compute. reflexivity.
  - vm_compute. reflexivity.
  - discriminate.
  - constructor.
  - exists s, c. repeat split; [exact Hs|exact Hc|exact Hk|].
    apply Hn. vm_compute. reflexivity.
Defined.

Lemma first_schema_wins_witness :
  ∃ s, parse_talend_xml XmlReader.fromstring two_schemas_xml = Return s
       ∧ metadata s !! "row1" = Some [column_data id_column]
       ∧ (comp_metadata <$> components s)
         = [[schema_data first_schema]; [schema_data second_schema]].
Proof.
  destruct (first_schema_wins XmlReader.fromstring two_schemas_xml two_schemas_root
              "row1" first_schema) as (s & Hs & Hm & Hl).
  - exact read_two_schemas.
  - discriminate.
  - vm_compute. reflexivity.
  - exists s. split; [exact Hs|]. split; [exact Hm|].
    change (findall "node" two_schemas_root) with
      [element "node"
               [("componentName", "tRowGenerator"); ("uniqueName", "tRowGenerator_1")]
               None [first_schema];
       element "node" [("componentName", "tLogRow"); ("uniqueName", "tLogRow_1")]
               None [second_schema]] in Hl.
    destruct (components s) as [|c1 [|c2 [|c3 cs]]];
      inversion Hl as [|? ? ? ? H1 Hl']; subst;
      inversion Hl' as [|? ? ? ? H2 Hl'']; subst;
      inversion Hl''; subst.
    simpl. rewrite H1, H2. reflexivity.
Defined.

Lemma denylist_never_a_key_witness :
  comp_parameters (component_of labelled_node) !! "LABEL" = None
  ∧ comp_parameters (component_of labelled_node) !! "ACTIVATE" = None.
Proof.
  split.
  - apply (denylist_never_a_key XmlReader.fromstring labelled_xml
             (extract labelled_root)).
    + exact (parse_parsed _ _ _ read_labelled).
    + vm_compute. constructor.
    + unfold denylist. set_solver.
  - apply (denylist_never_a_key XmlReader.fromstring labelled_xml
             (extract labelled_root)).
    + exact (parse_parsed _ _ _ read_labelled).
    + vm_compute. constructor.
    + unfold denylist. set_solver.
Defined.

Lemma param_value_resolution_witness :
  param_value text_param = Some "SELECT 2"
  ∧ param_value query_param = Some (quoted "SELECT 1").
Proof.
  split.
  - apply (param_value_resolution text_param). discriminate.
  - apply (param_value_resolution query_param). discriminate.
Defined.

Lemma job_name_sentinel_witness :
  ∃ s, parse_talend_xml XmlReader.fromstring file_input_xml = Return s
       ∧ job_name s = "unknown_job".
Proof.
  apply (job_name_sentinel XmlReader.fromstring file_input_xml file_input_root).
  - exact read_file_input.
  - vm_compute. repeat constructor; discriminate.
  - vm_compute. repeat constructor; discriminate.
Defined.

Lemma file_input_scenario_witness :
  ∃ s c, parse_talend_xml XmlReader.fromstring file_input_xml = Return s
         ∧ components s = [c]
         ∧ comp_type c = Some "tFileInputFile"
         ∧ comp_label c = Some "tFileInputFile_1"
         ∧ comp_parameters c !! "filepath" = Some (Some "/data/in.csv").
Proof.
  apply (file_input_scenario XmlReader.fromstring file_input_xml file_input_root
           file_input_node [] filename_param []).
  - exact read_file_input.
  - vm_compute. reflexivity.
  - vm_compute. reflexivity.
  - vm_compute. reflexivity.
  - vm_compute. reflexivity.
  - vm_compute. reflexivity.
  - vm_compute. reflexivity.
  - constructor.
  - vm_compute. repeat constructor; discriminate.
Defined.

Lemma node_without_identity_witness :
  ∃ s c, parse_talend_xml XmlReader.fromstring anonymous_xml = Return s
         ∧ error s = None
         ∧ components s !! 0 = Some c
         ∧ comp_type c = None ∧ comp_unique_name c = None ∧ comp_label c = None.
Proof.
  destruct (node_without_identity XmlReader.fromstring anonymous_xml anonymous_root
              anonymous_node 0) as (s & c & Hs & He & _ & Hc & Ht & Hu).
  - exact read_anonymous.
  - vm_compute. reflexivity.
  - exists s, c. split; [exact Hs|]. split; [exact He|]. split; [exact Hc|].
    split; [apply Ht; vm_compute; reflexivity|].
    destruct Hu as [Hu Hl]; [vm_compute; reflexivity|].
    split; [exact Hu|]. apply Hl. intros p Hp. vm_compute in Hp. discriminate.
Defined.

Lemma no_field_no_generic_key_witness :
  ∃ s c, parse_talend_xml XmlReader.fromstring labelled_xml = Return s
         ∧ components s !! 0 = Some c
         ∧ comp_parameters c !! "SEPARATOR" = None.
Proof.
  apply (no_field_no_generic_key XmlReader.fromstring labelled_xml labelled_root
           labelled_node 0 "SEPARATOR").
  - exact read_labelled.
  - vm_compute. reflexivity.
  - unfold promoted_keys, loop_keys. simpl. intros Hin.
    repeat (apply elem_of_cons in Hin as [Hin|Hin]; [discriminate Hin|]).
    by apply elem_of_nil in Hin.
  - unfold labelled_node, findall, descendants, iter_all. simpl.
    repeat constructor; intros Hname; vm_compute in Hname;
      first [discriminate Hname | vm_compute; reflexivity].
Defined.

(** * Further properties of the extractor *)

(** ** Stripping *)

Section Stripping.

Implicit Types (chars : list ascii) (s r : string) (c : ascii).

Lemma lstrip_split chars s :
  ∃ a, s = a +:+ lstrip chars s
       ∧ Forall (λ c, c ∈ chars) (String.list_ascii_of_string a).
Proof.
  induction s as [|c s IH].
  - exists "". by split; [|constructor].
  - cbn [lstrip]. unfold in_chars. case_bool_decide as Hc.
    + destruct IH as (a & Ha & Hall). exists (String c a).
      split; [|by constructor].
      change (String c s = String c (a +:+ lstrip chars s)). by f_equal.
    + exists "". by split; [|constructor].
Qed.

Lemma lstrip_head chars s c r :
  lstrip chars s = String c r → c ∉ chars.
Proof.
  induction s as [|a s IH]; simpl; [done|].
  unfold in_chars. case_bool_decide as Ha; [done|]. by intros [= -> ->].
Qed.

Lemma rstrip_split chars s :
  ∃ b, s = rstrip chars s +:+ b
       ∧ Forall (λ c, c ∈ chars) (String.list_ascii_of_string b).
Proof.
  induction s as [|c s IH].
  - exists "". by split; [|constructor].
  - destruct IH as (b & Hb & Hall). cbn [rstrip].
    destruct (rstrip chars s) as [|c' r'] eqn:Hr.
    + unfold in_chars. case_bool_decide as Hc.
      * exists (String c b). split; [|by constructor].
        change (String c s = String c b). by f_equal.
      * exists b. split; [|done].
        change (String c s = String c b). by f_equal.
    + exists b. split; [|done].
      change (String c s = String c (String c' r' +:+ b)). by f_equal.
Qed.

Lemma rstrip_head chars s c r :
  rstrip chars s = String c r → ∃ s', s = String c s'.
Proof.
  destruct s as [|a s]; simpl; [done|].
  destruct (rstrip chars s); [case_match; [done|]|]; intros [= -> _]; eauto.
Qed.

Lemma rstrip_last chars s r c :
  c ∈ chars → rstrip chars s ≠ r +:+ String c "".
Proof.
  intros Hc. revert r. induction s as [|a s IH]; intros r; simpl.
  - by destruct r.
  - destruct (rstrip chars s) as [|b r'] eqn:Hr.
    + unfold in_chars. case_bool_decide as Ha; [by destruct r|].
      destruct r as [|a' r]; simpl; [by intros [= ->]|].
      destruct r; simpl; by intros [= ].
    + destruct r as [|a' r]; simpl; [done|].
      intros [= -> Hrest]. by apply (IH r).
Qed.

Lemma rstrip_fixed chars s :
  (∀ r c, c ∈ chars → s ≠ r +:+ String c "") → rstrip chars s = s.
Proof.
  induction s as [|a s IH]; intros Hlast; simpl; [done|].
  rewrite IH.
  - destruct s as [|b s]; [|done].
    unfold in_chars. case_bool_decide as Ha; [|done].
    by destruct (Hlast "" a Ha).
  - intros r c Hc ->. by apply (Hlast (String a r) c Hc).
Qed.

Lemma lstrip_fixed chars s :
  (∀ r c, c ∈ chars → s ≠ String c r) → lstrip chars s = s.
Proof.
  destruct s as [|a s]; intros Hhead; simpl; [done|].
  unfold in_chars. case_bool_decide as Ha; [|done].
  by destruct (Hhead s a Ha).
Qed.

(** What [strip] returns: the part of the string between its leading
    and its trailing run of [chars]. *)
Lemma strip_spec chars s :
  (∃ a b, s = a +:+ strip chars s +:+ b
          ∧ Forall (λ c, c ∈ chars) (String.list_ascii_of_string a)
          ∧ Forall (λ c, c ∈ chars) (String.list_ascii_of_string b))
  ∧ (∀ r c, c ∈ chars → strip chars s ≠ String c r)
  ∧ (∀ r c, c ∈ chars → strip chars s ≠ r +:+ String c "")
  ∧ strip chars (strip chars s) = strip chars s.
Proof.
  assert (∀ r c, c ∈ chars → strip chars s ≠ String c r) as Hhead.
  { intros r c Hc Heq. unfold strip in Heq.
    destruct (rstrip_head _ _ _ _ Heq) as (s' & Hs').
    by apply lstrip_head in Hs'. }
  assert (∀ r c, c ∈ chars → strip chars s ≠ r +:+ String c "") as Hlast.
  { intros r c Hc. unfold strip. by apply rstrip_last. }
  split; [|split; [done|split; [done|]]].
  - destruct (lstrip_split chars s) as (a & Ha & Halla).
    destruct (rstrip_split chars (lstrip chars s)) as (b & Hb & Hallb).
    exists a, b. unfold strip. by rewrite <- Hb.
  - unfold strip at 1. by rewrite lstrip_fixed, rstrip_fixed.
Qed.

End Stripping.

(** ** Entries under a parameter's own name *)

Section GenericEntries.

Implicit Types (component_name field name value : option string).
Implicit Types (params : gmap string (option string)) (k v : string).
Implicit Types (node p : Element) (l : list Element).

Local Ltac loop_key_facts H :=
  unfold loop_keys in H; rewrite !not_elem_of_cons in H;
  destruct H as (?&?&?&?&?&_).

Lemma scan_param_inserts component_name params p k :
  inserted_under k p → k ∉ loop_keys →
  scan_param component_name params p !! k = Some (inserted_value p).
Proof.
  intros (Hname & Hfield & [v Hv] & Hk & Hdeny) Hloop. loop_key_facts Hloop.
  assert (truthy (Some k) = true) as Htk
      by (simpl; by rewrite bool_decide_eq_false_2).
  unfold scan_param, inserted_value, scan_with.
  rewrite Hname, Hfield, Hv, Htk, Hdeny. simpl.
  repeat (case_bool_decide || case_match); simplify_eq/=;
    rewrite ?lookup_insert_ne by congruence; by rewrite lookup_insert_eq.
Qed.

Lemma scan_param_skips component_name params p k :
  ¬ inserted_under k p → k ∉ loop_keys →
  scan_param component_name params p !! k = params !! k.
Proof.
  intros Hnot Hloop.
  destruct (decide (get "name" p = Some k)) as [Hname|Hname];
    [|by apply scan_with_other].
  destruct (truthy (get "field" p)) eqn:Hfield;
    [|by apply scan_with_no_field].
  loop_key_facts Hloop. unfold scan_param, scan_with. rewrite Hname, Hfield.
  destruct (param_value p) as [v|] eqn:Hv.
  - assert (truthy (Some k) && negb (denylisted k) = false) as Hguard.
    { destruct (decide (k = "")) as [->|Hk]; [done|].
      destruct (denylisted k) eqn:Hdeny; [by rewrite andb_false_r|].
      destruct Hnot. unfold inserted_under. rewrite Hname, Hfield, Hv. eauto. }
    cbn [andb]. rewrite Hguard.
    repeat (case_bool_decide || case_match); simplify_eq/=;
      rewrite ?lookup_insert_ne by congruence; done.
  - repeat (case_bool_decide || case_match); simplify_eq/=;
      rewrite ?lookup_insert_ne by congruence; done.
Qed.

Lemma scan_fold_last component_name l params k :
  k ∉ loop_keys →
  foldl (scan_param component_name) params l !! k =
    match last (filter (inserted_under k) l) with
    | Some p => Some (inserted_value p)
    | None => params !! k
    end.
Proof.
  intros Hloop. revert params. induction l as [|p l IH]; intros params; [done|].
  simpl. rewrite IH, filter_cons. case_decide as Hp.
  - rewrite last_cons. destruct (last (filter (inserted_under k) l)); [done|].
    by apply scan_param_inserts.
  - destruct (last (filter (inserted_under k) l)); [done|].
    by apply scan_param_skips.
Qed.

End GenericEntries.

(** ** Stored values *)

Section StoredValues.

Implicit Types (component_name field name value : option string).
Implicit Types (params : gmap string (option string)) (k n v : string).
Implicit Types (node p : Element) (l : list Element).

(** Every entry outside the raw keys holds a stripped string. *)
Local Definition stripped_entries params : Prop :=
  ∀ k x, params !! k = Some x → k ∈ raw_keys ∨ ∃ v, x = Some (strip_quotes v).

Lemma stripped_entries_insert params k v :
  stripped_entries params → stripped_entries (<[k := Some (strip_quotes v)]> params).
Proof.
  intros Hp k' x. rewrite lookup_insert. case_decide; [|by apply Hp].
  intros [= <-]. right. eauto.
Qed.

Lemma stripped_entries_raw params k x :
  k ∈ raw_keys → stripped_entries params → stripped_entries (<[k := x]> params).
Proof.
  intros Hk Hp k' x'. rewrite lookup_insert. case_decide; [|by apply Hp].
  subst. by left.
Qed.

Lemma scan_with_stripped component_name field name value params :
  stripped_entries params →
  stripped_entries (scan_with component_name field name value params).
Proof.
  intros Hp. unfold scan_with.
  destruct value as [v|], name as [n|]; simpl; rewrite ?andb_false_r;
    try destruct (truthy field && negb (bool_decide (n = "")) && negb (denylisted n));
    repeat case_bool_decide; simpl;
    repeat first
      [ assumption
      | apply stripped_entries_insert
      | apply stripped_entries_raw; [unfold raw_keys; set_solver|] ].
Qed.

Lemma component_parameters_stripped node :
  stripped_entries (comp_parameters (component_of node)).
Proof.
  simpl. unfold add_hint, scan_params.
  assert (∀ l params, stripped_entries params →
            stripped_entries
              (foldl (scan_param (get "componentName" node)) params l)) as Hfold.
  { induction l as [|p l IH]; intros params Hp; [done|].
    simpl. by apply IH, scan_with_stripped. }
  assert (stripped_entries ∅) as Hempty by (intros k x; by rewrite lookup_empty).
  case_match eqn:Hhint; [|by apply Hfold].
  destruct (find_attr "elementParameter" "name" "HINT" node ≫= get "value")
    as [v|]; [|done].
  by apply stripped_entries_insert, Hfold.
Qed.

(** In a [tMap] component a raw key is written only by the parameters
    of its rule, or by a parameter that bears the key as its name. *)
Lemma scan_with_keeps_raw field name value n k params :
  (n, k) ∈ raw_rules → name ≠ Some n → name ≠ Some k →
  scan_with (Some "tMap") field name value params !! k = params !! k.
Proof.
  intros Hnk Hn Hk. unfold raw_rules in Hnk.
  rewrite !elem_of_cons, elem_of_nil in Hnk.
  destruct Hnk as [?|[?|[]]]; simplify_eq; unfold scan_with;
    repeat (case_bool_decide || case_match); simplify_eq/=;
    rewrite ?lookup_insert_ne by congruence; done.
Qed.

Lemma scan_with_writes_raw field value n k params :
  (n, k) ∈ raw_rules →
  scan_with (Some "tMap") field (Some n) value params !! k = Some value.
Proof.
  intros Hnk. unfold raw_rules in Hnk.
  rewrite !elem_of_cons, elem_of_nil in Hnk.
  destruct Hnk as [?|[?|[]]]; simplify_eq; unfold scan_with;
    repeat (case_bool_decide || case_match); simplify_eq/=;
    rewrite ?lookup_insert_ne by congruence; by rewrite ?lookup_insert_eq.
Qed.

Lemma parameters_raw node l1 p l2 n k :
  get "componentName" node = Some "tMap" → (n, k) ∈ raw_rules →
  findall "elementParameter" node = l1 ++ p :: l2 →
  get "name" p = Some n →
  Forall (λ q, get "name" q ≠ Some n ∧ get "name" q ≠ Some k) l2 →
  comp_parameters (component_of node) !! k = Some (param_value p).
Proof.
  intros Hcn Hnk Hl Hname Hl2. simpl.
  assert (k ≠ "hint") as Hk.
  { unfold raw_rules in Hnk. rewrite !elem_of_cons, elem_of_nil in Hnk.
    destruct Hnk as [?|[?|[]]]; by simplify_eq. }
  rewrite add_hint_other by done.
  unfold scan_params. rewrite Hcn, Hl, foldl_app. simpl.
  assert (∀ params,
            foldl (scan_param (Some "tMap")) params l2 !! k = params !! k) as Hkeep.
  { clear Hl. induction Hl2 as [|q l [Hq1 Hq2] _ IH]; intros params; [done|].
    simpl. rewrite IH. unfold scan_param.
    by apply (scan_with_keeps_raw _ _ _ n k). }
  rewrite Hkeep. unfold scan_param. rewrite Hname.
  by apply scan_with_writes_raw.
Qed.

End StoredValues.

(** ** The parameters of a returned component *)

Section ReturnedParameters.

Variable fromstring : string → result Element.

(** Property X1.  Under a name that is not a promoted key, the
    parameters of a component hold the value of the last parameter of
    the node that passes the insertion test for that name (a non-empty
    field, a value, a name that is neither empty nor denylisted),
    stripped of its quotes; the name is not a key when no parameter
    passes the test. *)
Theorem parameter_last_wins (xml : string) (root node : Element) (i : nat)
    (k : string) :
  fromstring xml = Return root →
  findall "node" root !! i = Some node →
  k ∉ promoted_keys →
  ∃ s c, parse_talend_xml fromstring xml = Return s
         ∧ components s !! i = Some c
         ∧ comp_parameters c !! k =
             inserted_value
               <$> last (filter (inserted_under k) (findall "elementParameter" node)).
Proof.
  intros Hroot Hnode Hk.
  destruct (component_parsed fromstring xml root node i Hroot Hnode)
    as (s & Hs & Hc & _).
  exists s, (component_of node). split; [done|]. split; [done|].
  unfold promoted_keys in Hk. apply not_elem_of_app in Hk as [Hloop Hhint].
  rewrite list_elem_of_singleton in Hhint. simpl.
  rewrite add_hint_other by done. unfold scan_params.
  rewrite scan_fold_last, lookup_empty by done.
  by destruct (last (filter (inserted_under k) (findall "elementParameter" node))).
Qed.

(** Property X2.  Apart from the two raw keys of a [tMap], every value
    among the parameters of a returned component is a string that
    neither begins nor ends with a double quote: all the layers of
    quotes are removed, not one. *)
Theorem parameter_values_stripped (xml : string) (s : JobSummary)
    (c : Component) (k : string) (x : option string) :
  parse_talend_xml fromstring xml = Return s →
  c ∈ components s →
  comp_parameters c !! k = Some x →
  k ∉ raw_keys →
  ∃ w, x = Some w
       ∧ (∀ r, w ≠ String quote r)
       ∧ (∀ r, w ≠ r +:+ String quote "").
Proof.
  intros Hs Hc Hx Hk. destruct (fromstring xml) as [root|e] eqn:Hparse.
  - rewrite (parse_parsed _ _ _ Hparse) in Hs. simplify_eq.
    rewrite extract_eq in Hc. simpl in Hc.
    apply list_elem_of_fmap in Hc as (node & -> & _).
    destruct (component_parameters_stripped node k x Hx) as [?|[v ->]]; [done|].
    exists (strip_quotes v). split; [done|].
    destruct (strip_spec [quote] v) as (_ & Hhead & Hlast & _).
    split; intros r.
    + apply Hhead. by left.
    + apply Hlast. by left.
  - rewrite (parse_raised _ _ _ Hparse) in Hs. simplify_eq.
    simpl in Hc. by apply elem_of_nil in Hc.
Qed.

(** Property X3.  In a [tMap] component, the key [tMap_variables_raw]
    (resp. [tMap_outputs_raw]) holds the value of the last parameter
    named [VAR_TABLE] (resp. [OUTPUT_TABLES]) as it is, quotes included,
    and null when that parameter has neither text nor a [value]
    attribute, provided no later parameter of the node bears the key
    itself as its name. *)
Theorem tmap_raw_value (xml : string) (root node : Element) (i : nat)
    (l1 : list Element) (p : Element) (l2 : list Element) (n k : string) :
  fromstring xml = Return root →
  findall "node" root !! i = Some node →
  get "componentName" node = Some "tMap" →
  (n, k) ∈ raw_rules →
  findall "elementParameter" node = l1 ++ p :: l2 →
  get "name" p = Some n →
  Forall (λ q, get "name" q ≠ Some n ∧ get "name" q ≠ Some k) l2 →
  ∃ s c, parse_talend_xml fromstring xml = Return s
         ∧ components s !! i = Some c
         ∧ comp_parameters c !! k = Some (param_value p).
Proof.
  intros Hroot Hnode Hcn Hnk Hl Hname Hl2.
  destruct (component_parsed fromstring xml root node i Hroot Hnode)
    as (s & Hs & Hc & _).
  exists s, (component_of node). split; [done|]. split; [done|].
  by eapply parameters_raw.
Qed.

End ReturnedParameters.

(** ** Label, hint and job name *)

Section LabelHintName.

Variable fromstring : string → result Element.

Lemma find_attr_first (t key v : string) (node : Element)
    (l1 : list Element) (p : Element) (l2 : list Element) :
  findall t node = l1 ++ p :: l2 →
  Forall (λ q, get key q ≠ Some v) l1 →
  get key p = Some v →
  find_attr t key v node = Some p.
Proof.
  intros Hl Hl1 Hp. unfold find_attr.
  by rewrite Hl, filter_app, (filter_none _ _ Hl1), filter_cons_True.
Qed.

(** Property X4.  The label of a component is decided by the first
    parameter named [LABEL] of its node, and by its [value] attribute
    alone: when that value is non-empty the label is the value stripped
    of its quotes, otherwise it is the unique name, whatever the text of
    the parameter and whatever later [LABEL] parameters hold.  [LABEL]
    itself is never a key of the parameters. *)
Theorem label_from_first_parameter (xml : string) (root node : Element) (i : nat)
    (l1 : list Element) (p : Element) (l2 : list Element) :
  fromstring xml = Return root →
  findall "node" root !! i = Some node →
  findall "elementParameter" node = l1 ++ p :: l2 →
  Forall (λ q, get "name" q ≠ Some "LABEL") l1 →
  get "name" p = Some "LABEL" →
  ∃ s c, parse_talend_xml fromstring xml = Return s
         ∧ components s !! i = Some c
         ∧ comp_label c = (if truthy (get "value" p)
                           then strip_quotes <$> get "value" p
                           else get "uniqueName" node)
         ∧ comp_parameters c !! "LABEL" = None.
Proof.
  intros Hroot Hnode Hl Hl1 Hp.
  destruct (component_parsed fromstring xml root node i Hroot Hnode)
    as (s & Hs & Hc & _).
  exists s, (component_of node). split; [done|]. split; [done|]. split.
  - simpl. unfold node_label.
    by rewrite (find_attr_first _ _ _ _ _ _ _ Hl Hl1 Hp).
  - apply parameters_denylisted. unfold denylist. set_solver.
Qed.

(** Property X5.  When the first parameter named [HINT] of a node has a
    non-empty [value] attribute, the key [hint] of the component holds
    that value stripped of its quotes, in any kind of component and
    whatever the other parameters are, a parameter named [hint]
    included; the text of the [HINT] parameter plays no part. *)
Theorem hint_from_first_parameter (xml : string) (root node : Element) (i : nat)
    (l1 : list Element) (p : Element) (l2 : list Element) (v : string) :
  fromstring xml = Return root →
  findall "node" root !! i = Some node →
  findall "elementParameter" node = l1 ++ p :: l2 →
  Forall (λ q, get "name" q ≠ Some "HINT") l1 →
  get "name" p = Some "HINT" →
  get "value" p = Some v → v ≠ "" →
  ∃ s c, parse_talend_xml fromstring xml = Return s
         ∧ components s !! i = Some c
         ∧ comp_parameters c !! "hint" = Some (Some (strip_quotes v)).
Proof.
  intros Hroot Hnode Hl Hl1 Hp Hv Hne.
  destruct (component_parsed fromstring xml root node i Hroot Hnode)
    as (s & Hs & Hc & _).
  exists s, (component_of node). split; [done|]. split; [done|].
  simpl. unfold add_hint.
  rewrite (find_attr_first _ _ _ _ _ _ _ Hl Hl1 Hp). simpl. rewrite Hv. simpl.
  rewrite bool_decide_eq_false_2 by done. simpl. by rewrite lookup_insert_eq.
Qed.

(** Property X6.  When the first [Property] element of the document
    has a non-empty [label], the job name is that label, whether or not
    a [processType] element has a name. *)
Theorem job_name_from_property (xml : string) (root e : Element)
    (rest : list Element) (l : string) :
  fromstring xml = Return root →
  findall Property_tag root = e :: rest →
  get "label" e = Some l → l ≠ "" →
  ∃ s, parse_talend_xml fromstring xml = Return s ∧ job_name s = l.
Proof.
  intros Hroot Hfind Hl Hne. exists (extract root).
  split; [by apply parse_parsed|]. rewrite extract_eq. simpl.
  unfold extract_job_name, find. rewrite Hfind. simpl. rewrite Hl. simpl.
  by rewrite bool_decide_eq_false_2.
Qed.

(** Property X7.  Only the first [Property] element is consulted: when
    it has no non-empty [label], the job name is the non-empty [name] of
    the first [processType] element, even if a later [Property] element
    carries a label. *)
Theorem job_name_from_process_type (xml : string) (root e : Element)
    (rest : list Element) (pt : Element) (others : list Element) (n : string) :
  fromstring xml = Return root →
  findall Property_tag root = e :: rest →
  truthy (get "label" e) = false →
  findall "processType" root = pt :: others →
  get "name" pt = Some n → n ≠ "" →
  ∃ s, parse_talend_xml fromstring xml = Return s ∧ job_name s = n.
Proof.
  intros Hroot Hfind Hl Hpt Hn Hne. exists (extract root).
  split; [by apply parse_parsed|]. rewrite extract_eq. simpl.
  unfold extract_job_name, find. rewrite Hfind, Hpt. simpl. rewrite Hn. simpl.
  rewrite (bool_decide_eq_false_2 _ Hne). simpl.
  destruct (get "label" e) as [l|]; [|done]. simpl in Hl. by rewrite Hl.
Qed.

End LabelHintName.

(** ** Connections, notes and the schema map *)

Section ReturnedCollections.

Variable fromstring : string → result Element.

Lemma register_schema_empty_name x (m : gmap string (list Column)) :
  register_schema x m !! "" = m !! "".
Proof.
  unfold register_schema. destruct (get "name" x) as [n|]; [|done].
  destruct (decide (n = "")) as [->|Hn]; [done|].
  case_match; [|done]. by rewrite lookup_insert_ne.
Qed.

Lemma register_fold_empty_name (l : list Element) (m : gmap string (list Column)) :
  foldl (λ m x, register_schema x m) m l !! "" = m !! "".
Proof.
  revert m. induction l as [|x l IH]; intros m; [done|].
  simpl. by rewrite IH, register_schema_empty_name.
Qed.

(** Property X8.  The summary has one connection per [connection]
    element below the root and one note per [note] element, in document
    order, independently of the components: the five attributes of a
    connection are copied as they are, null when missing, and a note
    without [text] gives a null entry. *)
Theorem connections_and_notes (xml : string) (root : Element) :
  fromstring xml = Return root →
  ∃ s, parse_talend_xml fromstring xml = Return s
       ∧ connections s = connection_data <$> findall "connection" root
       ∧ notes s = get "text" <$> findall "note" root.
Proof.
  intros Hroot. exists (extract root).
  split; [by apply parse_parsed|]. by rewrite extract_eq.
Qed.

(** Property X9.  The job-level metadata is determined by the schemas
    that lie inside components: a non-empty name is bound to the columns
    of the first such schema of that name and is not a key when there is
    none; the empty name is never a key. *)
Theorem metadata_lookup (xml : string) (root : Element) (k : string) :
  fromstring xml = Return root →
  ∃ s, parse_talend_xml fromstring xml = Return s
       ∧ metadata s !! k =
           if decide (k = "") then None
           else schema_columns <$> first_named k (component_schemas root).
Proof.
  intros Hroot. exists (extract root).
  split; [by apply parse_parsed|]. rewrite extract_eq. simpl.
  case_decide as Hk.
  - subst. by rewrite register_fold_empty_name.
  - rewrite register_fold_lookup, lookup_empty by done.
    unfold first_named. by rewrite first_visited.
Qed.

(** Property X10.  Every entry of the job-level metadata is the schema
    of some component: a component of the summary has, in its local
    metadata list, a schema of that name with those columns. *)
Theorem metadata_entries_are_local (xml : string) (s : JobSummary)
    (k : string) (cols : list Column) :
  parse_talend_xml fromstring xml = Return s →
  metadata s !! k = Some cols →
  ∃ c sc, c ∈ components s ∧ sc ∈ comp_metadata c
          ∧ schema_name sc = Some k ∧ columns sc = cols.
Proof.
  intros Hs Hk. destruct (fromstring xml) as [root|e] eqn:Hparse.
  - rewrite (parse_parsed _ _ _ Hparse) in Hs. simplify_eq.
    rewrite extract_eq in Hk. rewrite extract_eq. simpl in *.
    destruct (decide (k = "")) as [->|Hne];
      [by rewrite register_fold_empty_name in Hk|].
    rewrite register_fold_lookup, lookup_empty in Hk by done.
    destruct (first_named k (visited_schemas root)) as [m|] eqn:Hm; [|done].
    simpl in Hk. simplify_eq.
    unfold first_named in Hm. apply head_Some_elem_of in Hm.
    apply list_elem_of_filter in Hm as [Hname Hm].
    unfold visited_schemas in Hm. apply list_elem_of_bind in Hm as (node & Hm & Hnode).
    exists (component_of node), (schema_data m).
    split; [by apply list_elem_of_fmap_2|].
    split; [by apply list_elem_of_fmap_2|]. done.
  - rewrite (parse_raised _ _ _ Hparse) in Hs. simplify_eq.
Qed.

(** Property X11.  A document without any [node] element below its
    root gives a summary with no component and no metadata, schemas
    outside components being ignored, and no error. *)
Theorem no_node_no_component (xml : string) (root : Element) :
  fromstring xml = Return root →
  findall "node" root = [] →
  ∃ s, parse_talend_xml fromstring xml = Return s
       ∧ components s = [] ∧ metadata s = ∅ ∧ error s = None.
Proof.
  intros Hroot Hnone. exists (extract root).
  split; [by apply parse_parsed|]. rewrite extract_eq. simpl.
  unfold visited_schemas. by rewrite Hnone.
Qed.


End ReturnedCollections.

(** ** The further statements on sample documents *)

Import MoreSamples.

Lemma read_hinted : XmlReader.fromstring hinted_xml = Return hinted_root.
Proof. vm_compute. reflexivity. Qed.

Lemma read_tmap : XmlReader.fromstring tmap_xml = Return tmap_root.
Proof. vm_compute. reflexivity. Qed.

Lemma read_properties : XmlReader.fromstring properties_xml = Return properties_root.
Proof. vm_compute. reflexivity. Qed.

Lemma read_twice : XmlReader.fromstring twice_xml = Return twice_root.
Proof. vm_compute. reflexivity. Qed.

Lemma parameter_last_wins_witness :
  ∃ s c, parse_talend_xml XmlReader.fromstring twice_xml = Return s
         ∧ components s !! 0 = Some c
         ∧ comp_parameters c !! "SEPARATOR" = Some (Some "|").
Proof.
  destruct (parameter_last_wins XmlReader.fromstring twice_xml twice_root
              twice_node 0 "SEPARATOR") as (s & c & Hs & Hc & Hk).
  - exact read_twice.
  - vm_compute. reflexivity.
  - unfold promoted_keys, loop_keys. simpl. intros Hin.
    repeat (apply elem_of_cons in Hin as [Hin|Hin]; [discriminate Hin|]).
    by apply elem_of_nil in Hin.
  - exists s, c. split; [exact Hs|]. split; [exact Hc|].
    rewrite Hk. vm_compute. reflexivity.
Defined.

Lemma parameter_values_stripped_witness :
  ∃ w, Some "|" = Some w
       ∧ (∀ r, w ≠ String quote r)
       ∧ (∀ r, w ≠ r +:+ String quote "").
Proof.
  apply (parameter_values_stripped XmlReader.fromstring twice_xml
           (extract twice_root) (component_of twice_node) "SEPARATOR").
  - exact (parse_parsed _ _ _ read_twice).
  - vm_compute. constructor.
  - vm_compute. reflexivity.
  - unfold raw_keys. intros Hin.
    repeat (apply elem_of_cons in Hin as [Hin|Hin]; [discriminate Hin|]).
    by apply elem_of_nil in Hin.
Defined.

Lemma tmap_raw_value_witness :
  ∃ s c, parse_talend_xml XmlReader.fromstring tmap_xml = Return s
         ∧ components s !! 0 = Some c
         ∧ comp_parameters c !! "tMap_variables_raw" = Some (Some (quoted "Var"))
         ∧ comp_parameters c !! "tMap_outputs_raw" = Some None.
Proof.
  destruct (tmap_raw_value XmlReader.fromstring tmap_xml tmap_root tmap_node 0
              [] var_table_param [output_tables_param]
              "VAR_TABLE" "tMap_variables_raw") as (s & c & Hs & Hc & Hv).
  - exact read_tmap.
  - vm_compute. reflexivity.
  - vm_compute. reflexivity.
  - unfold raw_rules. set_solver.
  - vm_compute. reflexivity.
  - vm_compute. reflexivity.
  - repeat constructor; vm_compute; discriminate.
  - destruct (tmap_raw_value XmlReader.fromstring tmap_xml tmap_root tmap_node 0
                [var_table_param] output_tables_param []
                "OUTPUT_TABLES" "tMap_outputs_raw") as (s' & c' & Hs' & Hc' & Ho).
    + exact read_tmap.
    + vm_compute. reflexivity.
    + vm_compute. reflexivity.
    + unfold raw_rules. set_solver.
    + vm_compute. reflexivity.
    + vm_compute. reflexivity.
    + constructor.
    + rewrite Hs in Hs'. injection Hs' as <-. rewrite Hc in Hc'.
      injection Hc' as <-.
      exists s, c. split; [exact Hs|]. split; [exact Hc|]. split.
      * rewrite Hv. vm_compute. reflexivity.
      * rewrite Ho. vm_compute. reflexivity.
Defined.

Lemma label_from_first_parameter_witness :
  ∃ s c, parse_talend_xml XmlReader.fromstring hinted_xml = Return s
         ∧ components s !! 0 = Some c
         ∧ comp_label c = Some "MyStep"
         ∧ comp_parameters c !! "LABEL" = None.
Proof.
  destruct (label_from_first_parameter XmlReader.fromstring hinted_xml hinted_root
              hinted_node 0
              (take 1 (findall "elementParameter" hinted_node))
              (default hinted_node (findall "elementParameter" hinted_node !! 1))
              (drop 2 (findall "elementParameter" hinted_node)))
    as (s & c & Hs & Hc & Hl & Hk).
  - exact read_hinted.
  - vm_compute. reflexivity.
  - vm_compute. reflexivity.
  - vm_compute. repeat constructor; discriminate.
  - vm_compute. reflexivity.
  - exists s, c. split; [exact Hs|]. split; [exact Hc|]. split; [|exact Hk].
    rewrite Hl. vm_compute. reflexivity.
Defined.

Lemma hint_from_first_parameter_witness :
  ∃ s c, parse_talend_xml XmlReader.fromstring hinted_xml = Return s
         ∧ components s !! 0 = Some c
         ∧ comp_parameters c !! "hint" = Some (Some "from attribute").
Proof.
  apply (hint_from_first_parameter XmlReader.fromstring hinted_xml hinted_root
           hinted_node 0
           (take 2 (findall "elementParameter" hinted_node))
           (default hinted_node (findall "elementParameter" hinted_node !! 2))
           (drop 3 (findall "elementParameter" hinted_node))
           (quoted "from attribute")).
  - exact read_hinted.
  - vm_compute. reflexivity.
  - vm_compute. reflexivity.
  - vm_compute. repeat constructor; discriminate.
  - vm_compute. reflexivity.
  - vm_compute. reflexivity.
  - discriminate.
Defined.

Lemma read_named : XmlReader.fromstring named_xml = Return named_root.
Proof. vm_compute. reflexivity. Qed.

Lemma job_name_from_property_witness :
  ∃ s, parse_talend_xml XmlReader.fromstring named_xml = Return s
       ∧ job_name s = "first_label".
Proof.
  apply (job_name_from_property XmlReader.fromstring named_xml named_root
           (element Property_tag [("label", "first_label")] None []) []).
  - exact read_named.
  - vm_compute. reflexivity.
  - vm_compute. reflexivity.
  - discriminate.
Defined.

Lemma job_name_from_process_type_witness :
  ∃ s, parse_talend_xml XmlReader.fromstring properties_xml = Return s
       ∧ job_name s = "from_process".
Proof.
  apply (job_name_from_process_type XmlReader.fromstring properties_xml
           properties_root
           (element Property_tag [] None [])
           [element Property_tag [("label", "late_label")] None []]
           (element "processType" [("name", "from_process")] None []) []).
  - exact read_properties.
  - vm_compute. reflexivity.
  - vm_compute. reflexivity.
  - vm_compute. reflexivity.
  - vm_compute. reflexivity.
  - discriminate.
Defined.

Lemma connections_and_notes_witness :
  ∃ s, parse_talend_xml XmlReader.fromstring properties_xml = Return s
       ∧ connections s
         = [mkConnection (Some "a") (Some "missing") None (Some "0") None]
       ∧ notes s = [None; Some "second"].
Proof.
  destruct (connections_and_notes XmlReader.fromstring properties_xml
              properties_root read_properties) as (s & Hs & Hc & Hn).
  exists s. split; [exact Hs|]. split.
  - rewrite Hc. vm_compute. reflexivity.
  - rewrite Hn. vm_compute. reflexivity.
Defined.

Lemma metadata_lookup_witness :
  ∃ s, parse_talend_xml XmlReader.fromstring properties_xml = Return s
       ∧ metadata s !! "orphan" = None.
Proof.
  destruct (metadata_lookup XmlReader.fromstring properties_xml properties_root
              "orphan" read_properties) as (s & Hs & Hk).
  exists s. split; [exact Hs|]. rewrite Hk. vm_compute. reflexivity.
Defined.

Lemma metadata_entries_are_local_witness :
  ∃ c sc, c ∈ components (extract Samples.two_schemas_root)
          ∧ sc ∈ comp_metadata c
          ∧ schema_name sc = Some "row1"
          ∧ columns sc = [column_data Samples.id_column].
Proof.
  apply (metadata_entries_are_local XmlReader.fromstring Samples.two_schemas_xml
           (extract Samples.two_schemas_root) "row1").
  - exact (parse_parsed _ _ _ read_two_schemas).
  - vm_compute. reflexivity.
Defined.

Lemma no_node_no_component_witness :
  ∃ s, parse_talend_xml XmlReader.fromstring properties_xml = Return s
       ∧ components s = [] ∧ metadata s = ∅ ∧ error s = None.
Proof.
  apply (no_node_no_component XmlReader.fromstring properties_xml properties_root).
  - exact read_properties.
  - vm_compute. reflexivity.
Defined.

(** * The SQL blocks *)

Section Fences.

Import Re.

Implicit Types (pat s a b r w : string).

Lemma strip_prefix_spec pat s r : strip_prefix pat s = Some r → s = pat +:+ r.
Proof.
  revert s. induction pat as [|c pat IH]; intros [|d s]; simpl;
    try (by intros [= <-]); try done.
  case_bool_decide; [|done]. subst. intros Hr. by rewrite (IH _ Hr).
Qed.

Lemma strip_prefix_app pat r : strip_prefix pat (pat +:+ r) = Some r.
Proof.
  induction pat as [|c pat IH]; simpl; [by destruct r|].
  by rewrite bool_decide_eq_true_2.
Qed.

Lemma strip_prefix_extend pat s r w :
  strip_prefix pat s = Some r → strip_prefix pat (s +:+ w) = Some (r +:+ w).
Proof.
  revert s. induction pat as [|c pat IH]; intros [|d s]; simpl;
    try (by intros [= <-]); try done.
  case_bool_decide; [|done]. apply IH.
Qed.

Lemma string_app_assoc a b r : (a +:+ b) +:+ r = a +:+ (b +:+ r).
Proof.
  induction a as [|c a IH]; [done|].
  change (String c ((a +:+ b) +:+ r) = String c (a +:+ (b +:+ r))).
  by rewrite IH.
Qed.

Lemma string_app_length a b :
  String.length (a +:+ b) = String.length a + String.length b.
Proof.
  induction a as [|c a IH]; [done|].
  change (S (String.length (a +:+ b)) = S (String.length a + String.length b)).
  by rewrite IH.
Qed.

Lemma split_first_spec pat s a r :
  split_first pat s = Some (a, r) → s = a +:+ pat +:+ r.
Proof.
  revert a. induction s as [|c s IH]; intros a.
  - destruct pat; simpl; [|done]. intros Heq. simplify_eq. reflexivity.
  - cbn [split_first]. destruct (strip_prefix pat (String c s)) as [r'|] eqn:Hp.
    + intros Heq. simplify_eq. exact (strip_prefix_spec _ _ _ Hp).
    + destruct (split_first pat s) as [[a' r']|]; [|done].
      intros Heq. simplify_eq.
      change (String c s = String c (a' +:+ pat +:+ r)).
      by rewrite (IH a' eq_refl).
Qed.

(** The text before the first occurrence holds no occurrence. *)
Lemma split_first_minimal pat s a r :
  pat ≠ "" → split_first pat s = Some (a, r) → split_first pat a = None.
Proof.
  intros Hpat. revert a. induction s as [|c s IH]; intros a.
  - destruct pat; simpl; [done|done].
  - cbn [split_first]. destruct (strip_prefix pat (String c s)) as [r'|] eqn:Hp.
    + intros Heq. simplify_eq. by destruct pat.
    + destruct (split_first pat s) as [[a' r']|] eqn:Hs; [|done].
      intros Heq. simplify_eq. cbn [split_first].
      destruct (strip_prefix pat (String c a')) as [x|] eqn:Hx.
      * apply split_first_spec in Hs. subst s.
        apply (strip_prefix_extend _ _ _ (pat +:+ r)) in Hx.
        change (String c a' +:+ pat +:+ r) with (String c (a' +:+ pat +:+ r)) in Hx.
        congruence.
      * by rewrite (IH a' eq_refl).
Qed.

Lemma split_first_length pat s a r :
  split_first pat s = Some (a, r) →
  String.length s = String.length a + String.length pat + String.length r.
Proof.
  intros ->%split_first_spec. rewrite !string_app_length. lia.
Qed.

Lemma match_at_shorter s block rest :
  match_at s = Some (block, rest) → String.length rest < String.length s.
Proof.
  unfold match_at. destruct (strip_prefix fence s) as [r1|] eqn:H1; [|done].
  apply strip_prefix_spec in H1. subst s.
  destruct (strip_prefix _ r1) as [body|] eqn:H2.
  - apply strip_prefix_spec in H2. subst r1.
    intros Hs%split_first_length. rewrite !string_app_length. simpl. lia.
  - destruct (strip_prefix (String newline "") r1) as [body|] eqn:H3; [|done].
    apply strip_prefix_spec in H3. subst r1.
    intros Hs%split_first_length. rewrite !string_app_length. simpl. lia.
Qed.

(** The fuel of [findall_fenced] is enough. *)
Lemma findall_from_enough (n m : nat) s :
  (String.length s ≤ n)%nat → (String.length s ≤ m)%nat →
  findall_from n s = findall_from m s.
Proof.
  revert m s. induction n as [|n IH]; intros m s Hn Hm.
  - destruct s; [|simpl in Hn; lia]. by destruct m.
  - destruct m as [|m].
    + destruct s; [done|simpl in Hm; lia].
    + simpl. destruct (match_at s) as [[block rest]|] eqn:Hmatch.
      * apply match_at_shorter in Hmatch. f_equal. apply IH; lia.
      * destruct s as [|c s]; [done|]. simpl in *. apply IH; lia.
Qed.

Lemma findall_fenced_eq s :
  findall_fenced s =
    match match_at s with
    | Some (block, rest) => block :: findall_fenced rest
    | None =>
        match s with
        | String _ s' => findall_fenced s'
        | EmptyString => []
        end
    end.
Proof.
  unfold findall_fenced. destruct s as [|c s].
  - simpl. by destruct (match_at "") as [[? ?]|].
  - cbn [String.length findall_from].
    destruct (match_at (String c s)) as [[block rest]|] eqn:Hmatch; [|done].
    apply match_at_shorter in Hmatch. f_equal.
    apply findall_from_enough; simpl in *; lia.
Qed.

End Fences.

Section SqlBlocks.

Import Re.

Implicit Types (pat s a b r w prose block rest tail : string).

Lemma split_first_suffix pat a b :
  split_first pat (a +:+ b) = None → split_first pat b = None.
Proof.
  induction a as [|c a IH]; [done|].
  change (String c a +:+ b) with (String c (a +:+ b)). cbn [split_first].
  destruct (strip_prefix pat (String c (a +:+ b))); [done|].
  destruct (split_first pat (a +:+ b)) as [[? ?]|]; [done|]. intros _. by apply IH.
Qed.

Lemma free_of_tail pat c s : free_of pat (String c s) → free_of pat s.
Proof. apply (split_first_suffix pat (String c "") s). Qed.

Lemma match_at_needs_closing s : free_of closing s → match_at s = None.
Proof.
  intros Hfree. unfold match_at.
  destruct (strip_prefix fence s) as [r1|] eqn:H1; [|done].
  apply strip_prefix_spec in H1. subst s.
  apply split_first_suffix in Hfree.
  destruct (strip_prefix _ r1) as [body|] eqn:H2.
  - apply strip_prefix_spec in H2. subst r1.
    by apply split_first_suffix in Hfree.
  - destruct (strip_prefix (String newline "") r1) as [body|] eqn:H3; [|done].
    apply strip_prefix_spec in H3. subst r1.
    by apply split_first_suffix in Hfree.
Qed.

Lemma findall_needs_closing s : free_of closing s → findall_fenced s = [].
Proof.
  induction s as [|c s IH]; intros Hfree; rewrite findall_fenced_eq;
    rewrite (match_at_needs_closing _ Hfree); [done|].
  apply IH. by eapply free_of_tail.
Qed.

(** Property X13.  A generated text in which no newline is followed by
    three backquotes has no block, fences that are opened and never
    closed included: the whole text, fence marks and all, is the single
    model of the SQL file. *)
Theorem text_without_closing_kept_whole s :
  free_of closing s →
  sql_blocks s = [s] ∧ sql_file_text s = model_text 1 s.
Proof.
  intros Hfree. unfold sql_file_text, sql_blocks.
  rewrite (findall_needs_closing _ Hfree). split; [done|].
  simpl. generalize (model_text 1 s). intros t.
  induction t as [|c t IH]; [done|].
  change (String c (t +:+ "") = String c t). by rewrite IH.
Qed.

End SqlBlocks.

Section RoundTrip.

Import Re.

Implicit Types (pat s a b r w prose block rest tail : string).

Lemma prose_skipped prose s :
  no_backquote prose → findall_fenced (prose +:+ s) = findall_fenced s.
Proof.
  unfold no_backquote. induction prose as [|c prose IH]; intros Hno; [done|].
  simpl in Hno. apply Forall_cons in Hno as [Hc Hno].
  change (String c prose +:+ s) with (String c (prose +:+ s)).
  rewrite findall_fenced_eq.
  assert (match_at (String c (prose +:+ s)) = None) as ->.
  { unfold match_at, fence. cbn [strip_prefix].
    by rewrite bool_decide_eq_false_2 by congruence. }
  by apply IH.
Qed.

Lemma closing_not_sooner c b w :
  strip_prefix closing (String c b) = None →
  strip_prefix closing (String c (b +:+ closing +:+ w)) = None.
Proof.
  unfold closing, fence, newline, backquote.
  destruct b as [|c1 [|c2 [|c3 b]]]; simpl;
    repeat (case_bool_decide; simplify_eq; simpl; try done).
Qed.

Lemma closing_found block rest :
  free_of closing block →
  split_first closing (block +:+ closing +:+ rest) = Some (block, rest).
Proof.
  unfold free_of. induction block as [|c block IH]; intros Hfree.
  - change ("" +:+ closing +:+ rest) with (closing +:+ rest).
    unfold closing at 2. cbn [split_first].
    change (String newline fence +:+ rest) with (closing +:+ rest).
    destruct rest; cbn; by rewrite ?strip_prefix_app.
  - change (String c block +:+ closing +:+ rest)
      with (String c (block +:+ closing +:+ rest)).
    cbn [split_first] in *.
    destruct (strip_prefix closing (String c block)) eqn:Hp; [done|].
    rewrite (closing_not_sooner _ _ _ Hp).
    destruct (split_first closing block) as [[? ?]|] eqn:Hb; [done|].
    by rewrite IH.
Qed.

End RoundTrip.

Section BlocksOfFencedText.

Import Re.

Implicit Types (pat s a b r w prose block rest tail : string).

Lemma match_at_fence (with_sql : bool) block rest :
  free_of closing block →
  match_at (fence +:+ (if with_sql then "sql" else "") +:+ String newline ""
              +:+ block +:+ closing +:+ rest)
  = Some (block, rest).
Proof.
  intros Hfree. unfold match_at. rewrite strip_prefix_app.
  destruct with_sql.
  - change ("sql" +:+ String newline "" +:+ block +:+ closing +:+ rest)
      with (("sql" +:+ String newline "") +:+ block +:+ closing +:+ rest).
    rewrite strip_prefix_app. by apply closing_found.
  - change ("" +:+ String newline "" +:+ block +:+ closing +:+ rest)
      with (String newline (block +:+ closing +:+ rest)).
    assert (strip_prefix ("sql" +:+ String newline "")
              (String newline (block +:+ closing +:+ rest)) = None) as ->
        by reflexivity.
    assert (strip_prefix (String newline "")
              (String newline (block +:+ closing +:+ rest))
            = Some (block +:+ closing +:+ rest)) as -> by reflexivity.
    by apply closing_found.
Qed.

Lemma fenced_app prose (with_sql : bool) block rest :
  fenced prose with_sql block +:+ rest =
    prose +:+ (fence +:+ (if with_sql then "sql" else "") +:+ String newline ""
                 +:+ block +:+ closing +:+ rest).
Proof. unfold fenced. by rewrite !string_app_assoc. Qed.

Lemma findall_fenced_chunk prose (with_sql : bool) block rest :
  no_backquote prose → free_of closing block →
  findall_fenced (fenced prose with_sql block +:+ rest)
  = block :: findall_fenced rest.
Proof.
  intros Hprose Hblock. rewrite fenced_app, prose_skipped by done.
  by rewrite findall_fenced_eq, match_at_fence.
Qed.

Lemma no_backquote_free_of_closing s : no_backquote s → free_of closing s.
Proof.
  unfold no_backquote, free_of. induction s as [|c s IH]; intros Hno; [done|].
  simpl in Hno. apply Forall_cons in Hno as [Hc Hno].
  cbn [split_first]. rewrite (IH Hno).
  assert (strip_prefix closing (String c s) = None) as ->; [|done].
  unfold closing, fence. cbn [strip_prefix]. case_bool_decide; [|done].
  destruct s as [|d s]; [done|]. simpl in Hno. apply Forall_cons in Hno as [Hd _].
  by rewrite bool_decide_eq_false_2 by congruence.
Qed.

Lemma findall_fenced_text (chunks : list (string * bool * string)) tail :
  Forall (λ ch, no_backquote ch.1.1 ∧ free_of closing ch.2) chunks →
  no_backquote tail →
  findall_fenced (fenced_text chunks tail) = snd <$> chunks.
Proof.
  intros Hchunks Htail. induction Hchunks as [|[[prose w] block] chunks [Hp Hb] _ IH].
  - simpl. by apply findall_needs_closing, no_backquote_free_of_closing.
  - cbn [fenced_text]. rewrite findall_fenced_chunk by done. by rewrite IH.
Qed.

(** Property X14.  The blocks come back as they were fenced: for a
    generated text made of chunks of prose without backquote, each
    followed by a block between fences (opened with or without [sql])
    that holds no newline followed by three backquotes, and of closing
    prose without backquote, the SQL blocks are exactly the fenced
    blocks, in order, and the SQL file numbers them from 1. *)
Theorem fenced_blocks_round_trip (chunks : list (string * bool * string)) tail :
  Forall (λ ch, no_backquote ch.1.1 ∧ free_of closing ch.2) chunks →
  no_backquote tail →
  chunks ≠ [] →
  sql_blocks (fenced_text chunks tail) = snd <$> chunks
  ∧ sql_file_text (fenced_text chunks tail) = write_models 1 (snd <$> chunks).
Proof.
  intros Hchunks Htail Hne.
  assert (sql_blocks (fenced_text chunks tail) = snd <$> chunks) as Hblocks.
  { unfold sql_blocks. rewrite findall_fenced_text by done.
    by destruct chunks. }
  split; [done|]. unfold sql_file_text. by rewrite Hblocks.
Qed.

Lemma findall_from_free (n : nat) s b :
  b ∈ findall_from n s → free_of closing b.
Proof.
  revert s. induction n as [|n IH]; intros s; simpl; [by intros ?%elem_of_nil|].
  destruct (match_at s) as [[block rest]|] eqn:Hmatch.
  - intros [->|Hb]%elem_of_cons; [|by eapply IH].
    unfold match_at in Hmatch.
    destruct (strip_prefix fence s) as [r1|]; [|done].
    destruct (strip_prefix _ r1) as [body|].
    + by eapply split_first_minimal.
    + destruct (strip_prefix (String newline "") r1) as [body|]; [|done].
      by eapply split_first_minimal.
  - destruct s as [|c s]; [by intros ?%elem_of_nil|]. apply IH.
Qed.

(** Property X15.  A block taken out of the generated text never holds
    a newline followed by three backquotes: a block ends at the first
    such mark after its opening fence. *)
Theorem fenced_block_ends_at_first_mark s b :
  b ∈ findall_fenced s → free_of closing b.
Proof. apply findall_from_free. Qed.

End BlocksOfFencedText.

Lemma text_without_closing_kept_whole_witness :
  sql_blocks (Re.fence +:+ "sql" +:+ String Re.newline "SELECT 1")
  = [Re.fence +:+ "sql" +:+ String Re.newline "SELECT 1"].
Proof.
  apply (text_without_closing_kept_whole
           (Re.fence +:+ "sql" +:+ String Re.newline "SELECT 1")).
  vm_compute. reflexivity.
Defined.

Lemma fenced_blocks_round_trip_witness :
  sql_blocks (fenced_text [("Here: ", true, "SELECT 1"); (" then ", false, "SELECT 2")]
                          " done")
  = ["SELECT 1"; "SELECT 2"].
Proof.
  apply (fenced_blocks_round_trip
           [("Here: ", true, "SELECT 1"); (" then ", false, "SELECT 2")] " done").
  - repeat constructor; vm_compute; try reflexivity;
      repeat constructor; discriminate.
  - vm_compute. repeat constructor; discriminate.
  - discriminate.
Defined.

Lemma fenced_block_ends_at_first_mark_witness :
  free_of Re.closing "A".
Proof.
  apply (fenced_block_ends_at_first_mark
           (fenced "" false "A" +:+ "B" +:+ Re.closing) "A").
  vm_compute. constructor.
Defined.
